(** * The DCGAN training script [train.py], as a state-passing program

    The script is glue code around a numerics framework.  The framework's
    numbers (tensors, gradients, optimizer state, random draws) are kept
    abstract behind the interface [Torch]; everything the script itself
    decides is modelled concretely: the order of [zero_grad], [backward] and
    [step] calls, which tensors are detached, how batches and label tensors
    are built, which files are written under which names, what is printed and
    where, and how startup selects the dataset or fails. *)

From stdpp Require Import base gmap list strings pretty.

Set Default Proof Using "Type".

(** * Paths and files *)

(** A [pathlib.Path] is kept as its list of components. *)
Abbreviation Path := (list string).

Definition joinpath (p : Path) (parts : list string) : Path := p ++ parts.

(** Rendering of a path in a message ([str(path)]). *)
Definition path_str (p : Path) : string := String.concat "/" p.

(** * Hyperparameters (the constants at the top of the entry point) *)

Definition project_name : string := "glomerulus".
Definition class_name : string := "05".
Definition PROJECT_PATH : Path := ["D:"; "pytorch_dcgan"].
Definition IN_PATH : Path := joinpath PROJECT_PATH ["input"; project_name; class_name].
Definition OUT_PATH : Path :=
  joinpath PROJECT_PATH ["output"; project_name; class_name; "train"].
(** [LR = 2e-4]; only its printed form is needed, the value lives in Adam. *)
Definition LR_str : string := "0.0002".
Definition IMAGE_CHANNEL : nat := 3.
Definition Z_DIM : nat := 100.
Definition X_DIM : nat := 64.
Definition G_HIDDEN : nat := X_DIM.
Definition D_HIDDEN : nat := G_HIDDEN.
(** labels for classification (1=real, 0=fake) *)
Definition REAL_LABEL : Z := 1.
Definition FAKE_LABEL : Z := 0.
Definition SEED : Z := 1.

Definition LOG_FILE : Path := joinpath OUT_PATH ["log.txt"].
Definition MNIST_PATH : Path := joinpath PROJECT_PATH ["input"; "mnist"; "mnist"].

(** File names built with [str.format]. *)
Definition real_samples_png : string := "real_samples.png".
Definition fake_samples_png (epoch : nat) : string :=
  "fake_samples_" +:+ pretty epoch +:+ ".png".
Definition netG_pth (epoch : nat) : string := "netG_" +:+ pretty epoch +:+ ".pth".
Definition netD_pth (epoch : nat) : string := "netD_" +:+ pretty epoch +:+ ".pth".

(** * The autograd graph

    A tensor remembers how it was computed; [backward] follows that record
    down to the parameters of the networks it passes through, and stops at a
    [detach]. *)

Inductive Net := NetG | NetD.

Global Instance Net_eq_dec : EqDecision Net.
Proof. solve_decision. Defined.

Inductive Graph :=
| Leaf                      (* data, noise, labels: nothing to differentiate *)
| ByG (x : Graph)           (* netG(x) *)
| ByD (x : Graph)           (* netD(x) *)
| Detached (x : Graph)      (* x.detach() *)
| Crit (y label : Graph).   (* criterion(y, label) *)

(** Does back-propagation from a tensor with graph [g] reach the
    parameters of network [n]? *)
Fixpoint reaches (n : Net) (g : Graph) : bool :=
  match g with
  | Leaf => false
  | ByG x => bool_decide (n = NetG) || reaches n x
  | ByD x => bool_decide (n = NetD) || reaches n x
  | Detached _ => false
  | Crit y l => reaches n y || reaches n l
  end.

Record Tensor (V : Type) := mkTensor { val : V; graph : Graph }.
Arguments mkTensor {V} _ _.
Arguments val {V} _.
Arguments graph {V} _.

Definition detach {V} (t : Tensor V) : Tensor V :=
  mkTensor (val t) (Detached (graph t)).

(** [torch.full((n,), v)] *)
Definition torch_full (n : nat) (v : Z) : Tensor (list Z) :=
  mkTensor (replicate n v) Leaf.

Inductive LossId := LossDReal | LossDFake | LossG.

Global Instance LossId_eq_dec : EqDecision LossId.
Proof. solve_decision. Defined.

(** * The framework interface *)

Class Torch := {
  Img : Type;                 (* one preprocessed image *)
  Noise : Type;               (* a batch of latent vectors *)
  Prob : Type;                (* discriminator output for a batch *)
  Scalar : Type;              (* a loss value *)
  ParamG : Type;              (* netG.state_dict() *)
  ParamD : Type;              (* netD.state_dict() *)
  GradG : Type;               (* the .grad fields of netG's parameters *)
  GradD : Type;               (* the .grad fields of netD's parameters *)
  OptG : Type;                (* state of optimizerG *)
  OptD : Type;                (* state of optimizerD *)
  Rng : Type;                 (* state of the global random generator *)
  zeroG : GradG;
  addG : GradG → GradG → GradG;
  zeroD : GradD;
  addD : GradD → GradD → GradD;
  manual_seed : Z → Rng;
  randn : Rng → nat → nat → Noise * Rng;
  shuffle : Rng → list Img → list Img * Rng;
  (* dcgan.Generator / dcgan.Discriminator followed by weights_init *)
  Generator : nat → nat → nat → Rng → ParamG * Rng;
  Discriminator : nat → nat → Rng → ParamD * Rng;
  repr_netG : ParamG → string;
  repr_netD : ParamD → string;
  netG_forward : ParamG → Noise → list Img;
  netD_forward : ParamD → list Img → Prob;
  BCELoss : Prob → list Z → Scalar;
  item_str : Scalar → string;                    (* '{:.4f}'.format(x.mean().item()) *)
  Adam_D : ParamD → OptD;
  Adam_G : ParamG → OptG;
  Adam_step_D : OptD → ParamD → GradD → OptD * ParamD;
  Adam_step_G : OptG → ParamG → GradG → OptG * ParamG;
  shuffle_perm : ∀ r l, (shuffle r l).1 ≡ₚ l
}.

(** What the three backward passes of one batch deliver.  Each oracle is given
    the parameters at the time of the forward pass, the inputs and the label
    tensor, and answers with the gradient for the Discriminator's parameters
    and the gradient for the Generator's; [backward] adds a component only
    where the graph of the loss reaches that network. *)
Record Autograd `{Torch} := mkAutograd {
  grad_D_real : ParamD → list Img → list Z → GradD * GradG;
  grad_D_fake : ParamD → ParamG → Noise → list Z → GradD * GradG;
  grad_G : ParamD → ParamG → Noise → list Z → GradD * GradG
}.

(** Sum of the gradients accumulated since the last [zero_grad]. *)
Definition gsumD `{Torch} (gs : list GradD) : GradD := foldl addD zeroD gs.
Definition gsumG `{Torch} (gs : list GradG) : GradG := foldl addG zeroG gs.

(** * The process: disk, streams, trace *)

Inductive Exn :=
| AssertionError
| Raised (what : string).     (* an exception raised inside a library call *)

Inductive Output :=
| Text (s : string)
| Traceback (e : Exn).

Inductive File `{Torch} :=
| FLog (lines : list Output)
| FImage (grid : list Img)
| FStateG (p : ParamG)
| FStateD (p : ParamD).

(** What [sys.stdout] is bound to. *)
Inductive Sink :=
| Console
| StdOut (file : Path).

Inductive Event :=
| EvClearFolder (p : Path)
| EvPrint (s : string)
| EvNew (n : Net) (channels : nat)
| EvBatch (epoch i size : nat) (real_label fake_label : list Z)
| EvZeroGrad (n : Net)
| EvBackward (l : LossId)
| EvStep (n : Net)
| EvWrite (p : Path).

Global Instance Event_eq_dec : EqDecision Event.
Proof. solve_decision. Defined.

Global Instance Exn_eq_dec : EqDecision Exn.
Proof. solve_decision. Defined.

Global Instance Output_eq_dec : EqDecision Output.
Proof. solve_decision. Defined.

Section Script.
Context `{T : Torch}.

Record World := mkWorld {
  fs : gmap Path File;              (* the disk *)
  sys_stdout : Sink;
  console_out : list Output;        (* the terminal, standard output *)
  console_err : list Output;        (* the terminal, standard error *)
  rng : Rng;
  trace : list Event                (* ghost: the calls made so far *)
}.

Definition set_fs (f : gmap Path File → gmap Path File) (w : World) : World :=
  mkWorld (f (fs w)) (sys_stdout w) (console_out w) (console_err w) (rng w) (trace w).
Definition set_stdout (k : Sink) (w : World) : World :=
  mkWorld (fs w) k (console_out w) (console_err w) (rng w) (trace w).
Definition to_console (o : Output) (w : World) : World :=
  mkWorld (fs w) (sys_stdout w) (console_out w ++ [o]) (console_err w) (rng w) (trace w).
Definition to_stderr (o : Output) (w : World) : World :=
  mkWorld (fs w) (sys_stdout w) (console_out w) (console_err w ++ [o]) (rng w) (trace w).
Definition set_rng (r : Rng) (w : World) : World :=
  mkWorld (fs w) (sys_stdout w) (console_out w) (console_err w) r (trace w).
Definition emit (e : Event) (w : World) : World :=
  mkWorld (fs w) (sys_stdout w) (console_out w) (console_err w) (rng w) (trace w ++ [e]).

(** Appending to the file behind an open log writer. *)
Definition append_log (f : Path) (o : Output) (d : gmap Path File) : gmap Path File :=
  match d !! f with
  | Some (FLog ls) => <[f := FLog (ls ++ [o])]> d
  | _ => <[f := FLog [o]]> d
  end.

(** Modelled from the spec: [utils.StdOut], the object bound to [sys.stdout],
    is missing from the sources.  The spec calls it "standard-output
    redirection to a log file": what is written to it goes to [log.txt]. *)
Definition StdOut_write (f : Path) (o : Output) (w : World) : World :=
  set_fs (append_log f o) w.

(** Modelled from the spec: creating the [utils.StdOut] writer opens the log
    file, which exists (empty when new) from then on. *)
Definition StdOut_open (f : Path) (w : World) : World :=
  set_fs (λ d, match d !! f with Some (FLog _) => d | _ => <[f := FLog []]> d end) w.

(** Modelled from the spec: [utils.clear_folder] is missing from the sources;
    as its name and the statement about it say, it empties the folder: every
    file below it is deleted (the folder itself is not part of the model). *)
Definition clear_folder (p : Path) (w : World) : World :=
  emit (EvClearFolder p) (set_fs (filter (λ kv, ¬ p `prefix_of` kv.1)) w).

Definition write_stdout (o : Output) (w : World) : World :=
  match sys_stdout w with
  | Console => to_console o w
  | StdOut f => StdOut_write f o w
  end.

Definition print (s : string) (w : World) : World :=
  write_stdout (Text s) (emit (EvPrint s) w).

Definition write_file (p : Path) (c : File) (w : World) : World :=
  emit (EvWrite p) (set_fs (<[p := c]>) w).

(** [vutils.save_image(tensor, path, normalize=True)] *)
Definition save_image (x : list Img) (p : Path) (w : World) : World :=
  write_file p (FImage x) w.

(** * The training state *)

Record State := mkState {
  world : World;
  dataset : list Img;
  viz_noise : Noise;
  paramsG : ParamG;
  paramsD : ParamD;
  gradG : GradG;                    (* accumulated since netG.zero_grad() *)
  gradD : GradD;                    (* accumulated since netD.zero_grad() *)
  optG : OptG;
  optD : OptD
}.

Definition on_world (f : World → World) (s : State) : State :=
  mkState (f (world s)) (dataset s) (viz_noise s) (paramsG s) (paramsD s)
          (gradG s) (gradD s) (optG s) (optD s).

Definition set_grads (gg : GradG) (gd : GradD) (s : State) : State :=
  mkState (world s) (dataset s) (viz_noise s) (paramsG s) (paramsD s)
          gg gd (optG s) (optD s).

(** [net.zero_grad()] *)
Definition zero_grad (n : Net) (s : State) : State :=
  on_world (emit (EvZeroGrad n))
    match n with
    | NetD => set_grads (gradG s) zeroD s
    | NetG => set_grads zeroG (gradD s) s
    end.

(** [loss.backward()]: the gradients [d] are added to the [.grad] fields of
    the networks that the graph of [loss] reaches, and of no other. *)
Definition backward (l : LossId) (loss : Tensor Scalar) (d : GradD * GradG) (s : State)
    : State :=
  on_world (emit (EvBackward l))
    (set_grads
       (if reaches NetG (graph loss) then addG (gradG s) d.2 else gradG s)
       (if reaches NetD (graph loss) then addD (gradD s) d.1 else gradD s)
       s).

(** [optimizerD.step()] and [optimizerG.step()] *)
Definition optimizer_step (n : Net) (s : State) : State :=
  on_world (emit (EvStep n))
    match n with
    | NetD =>
        let '(o, p) := Adam_step_D (optD s) (paramsD s) (gradD s) in
        mkState (world s) (dataset s) (viz_noise s) (paramsG s) p
                (gradG s) (gradD s) (optG s) o
    | NetG =>
        let '(o, p) := Adam_step_G (optG s) (paramsG s) (gradG s) in
        mkState (world s) (dataset s) (viz_noise s) p (paramsD s)
                (gradG s) (gradD s) o (optD s)
    end.

(** Forward passes, with the graph they record. *)
Definition netG (s : State) (z : Tensor Noise) : Tensor (list Img) :=
  mkTensor (netG_forward (paramsG s) (val z)) (ByG (graph z)).
Definition netD (s : State) (x : Tensor (list Img)) : Tensor Prob :=
  mkTensor (netD_forward (paramsD s) (val x)) (ByD (graph x)).
Definition criterion (y : Tensor Prob) (label : Tensor (list Z)) : Tensor Scalar :=
  mkTensor (BCELoss (val y) (val label)) (Crit (graph y) (graph label)).

(** [torch.randn(n, Z_DIM, 1, 1)] *)
Definition torch_randn (n d : nat) (s : State) : Tensor Noise * State :=
  let '(z, r) := randn (rng (world s)) n d in
  (mkTensor z Leaf, on_world (set_rng r) s).

Definition nl : string := String (Ascii.ascii_of_nat 10) "".

(** The text of the periodic report. *)
Definition report_line (epoch i total : nat) (lr lf lg : Scalar) : string :=
  "Epoch " +:+ pretty epoch +:+ " [" +:+ pretty i +:+ "/" +:+ pretty total +:+
  "] loss_D_real: " +:+ item_str lr +:+ " loss_D_fake: " +:+ item_str lf +:+
  " loss_G: " +:+ item_str lg.

(** * One pass of the inner loop body, for batch [i] of [epoch] *)

(** "Update D with real data" *)
Definition update_D_real (ag : Autograd) (x_real : Tensor (list Img))
    (real_label : Tensor (list Z)) (s : State) : Tensor Scalar * State :=
  let s := zero_grad NetD s in
  let y_real := netD s x_real in
  let loss_D_real := criterion y_real real_label in
  let s := backward LossDReal loss_D_real
             (grad_D_real ag (paramsD s) (val x_real) (val real_label)) s in
  (loss_D_real, s).

(** "Update D with fake data" *)
Definition update_D_fake (ag : Autograd) (x_real : Tensor (list Img))
    (fake_label : Tensor (list Z)) (s : State)
    : Tensor Noise * Tensor (list Img) * Tensor Scalar * State :=
  let '(z_noise, s) := torch_randn (length (val x_real)) Z_DIM s in
  let x_fake := netG s z_noise in
  let y_fake := netD s (detach x_fake) in
  let loss_D_fake := criterion y_fake fake_label in
  let s := backward LossDFake loss_D_fake
             (grad_D_fake ag (paramsD s) (paramsG s) (val z_noise) (val fake_label)) s in
  let s := optimizer_step NetD s in
  (z_noise, x_fake, loss_D_fake, s).

(** "Update G with fake data" *)
Definition update_G (ag : Autograd) (z_noise : Tensor Noise) (x_fake : Tensor (list Img))
    (real_label : Tensor (list Z)) (s : State) : Tensor Scalar * State :=
  let s := zero_grad NetG s in
  let y_fake_r := netD s x_fake in
  let loss_G := criterion y_fake_r real_label in
  let s := backward LossG loss_G
             (grad_G ag (paramsD s) (paramsG s) (val z_noise) (val real_label)) s in
  let s := optimizer_step NetG s in
  (loss_G, s).

(** The periodic report ([if i % 100 == 0]). *)
Definition report (epoch i total : nat) (x_real : Tensor (list Img))
    (loss_D_real loss_D_fake loss_G : Tensor Scalar) (s : State) : State :=
  if bool_decide (i `mod` 100 = 0) then
    let s := on_world (print (report_line epoch i total
                                (val loss_D_real) (val loss_D_fake) (val loss_G))) s in
    let s := on_world (save_image (val x_real) (joinpath OUT_PATH [real_samples_png])) s in
    let viz_sample := netG_forward (paramsG s) (viz_noise s) in
    on_world (save_image viz_sample (joinpath OUT_PATH [fake_samples_png epoch])) s
  else s.

Definition train_batch (ag : Autograd) (epoch i total : nat) (data : list Img)
    (s : State) : State :=
  let x_real := mkTensor data Leaf in
  let real_label := torch_full (length (val x_real)) REAL_LABEL in
  let fake_label := torch_full (length (val x_real)) FAKE_LABEL in
  let s := on_world (emit (EvBatch epoch i (length (val x_real))
                             (val real_label) (val fake_label))) s in
  let '(loss_D_real, s) := update_D_real ag x_real real_label s in
  let '(z_noise, x_fake, loss_D_fake, s) := update_D_fake ag x_real fake_label s in
  let '(loss_G, s) := update_G ag z_noise x_fake real_label s in
  report epoch i total x_real loss_D_real loss_D_fake loss_G s.

(** * The data loader and the two loops *)

(** [len(dataloader)] for [drop_last=False]: the last batch may be short. *)
Definition num_batches (bsz n : nat) : nat := (n + bsz - 1) / bsz.

(** The batches one iteration over the loader yields from the shuffled
    samples: batch [k] holds samples [k * bsz] up to [(k + 1) * bsz]. *)
Definition batches {A} (bsz : nat) (l : list A) : list (list A) :=
  (λ k, take bsz (drop (k * bsz) l)) <$> seq 0 (num_batches bsz (length l)).

(** [for i, data in enumerate(dataloader)], from index [i] on. *)
Fixpoint for_batches (ag : Autograd) (epoch i total : nat) (bs : list (list Img))
    (s : State) : State :=
  match bs with
  | [] => s
  | data :: rest => for_batches ag epoch (S i) total rest (train_batch ag epoch i total data s)
  end.

(** [torch.save(net.state_dict(), path)] *)
Definition torch_save (n : Net) (p : Path) (s : State) : State :=
  on_world (write_file p match n with
                         | NetG => FStateG (paramsG s)
                         | NetD => FStateD (paramsD s)
                         end) s.

(** The body of [for epoch in range(EPOCH_NUM)]. *)
Definition train_epoch (ag : Autograd) (bsz epoch : nat) (s : State) : State :=
  let '(samples, r) := shuffle (rng (world s)) (dataset s) in
  let s := on_world (set_rng r) s in
  let bs := batches bsz samples in
  let s := for_batches ag epoch 0 (length bs) bs s in
  let s := torch_save NetG (joinpath OUT_PATH [netG_pth epoch]) s in
  torch_save NetD (joinpath OUT_PATH [netD_pth epoch]) s.

Definition train (ag : Autograd) (bsz epochs : nat) (s : State) : State :=
  foldl (λ s epoch, train_epoch ag bsz epoch s) s (seq 0 epochs).

(** * Startup: a state-and-exception monad over the process *)

Definition M (A : Type) : Type := World → (Exn + A) * World.

Definition ret {A} (a : A) : M A := λ w, (inr a, w).
Definition bind {A B} (m : M A) (k : A → M B) : M B :=
  λ w, match m w with
       | (inl e, w') => (inl e, w')
       | (inr a, w') => k a w'
       end.
Definition raise {A} (e : Exn) : M A := λ w, (inl e, w).
Definition effect (f : World → World) : M unit := λ w, (inr (), f w).
Definition library {A} (r : Exn + A) : M A := λ w, (r, w).
Definition draw {A} (f : Rng → A * Rng) : M A :=
  λ w, let '(a, r) := f (rng w) in (inr a, set_rng r w).

Notation "'do' x <- m ; k" := (bind m (λ x, k))
  (at level 10, x name, m at level 100, k at level 200).
Notation "'do!' m ; k" := (bind m (λ _, k))
  (at level 10, m at level 100, k at level 200).

(** What the script finds outside itself. *)
Record Env := mkEnv {
  env_fs : gmap Path File;                    (* the disk before the run *)
  env_rng : Rng;
  cuda_is_available : bool;
  torch_version : string;
  cuda_version : string;
  path_exists : Path → bool;                  (* Path.exists() *)
  ImageFolder : Path → Exn + list Img;        (* dset.ImageFolder(root, transform) *)
  MNIST : Path → bool → Exn + list Img        (* dset.MNIST(root, download, transform) *)
}.

(** [if IN_PATH.exists(): ... else: ...]; returns the dataset and the channel
    count in force afterwards. *)
Definition load_dataset (env : Env) : M (list Img * nat) :=
  if path_exists env IN_PATH then
    do ds <- library (ImageFolder env IN_PATH);
    ret (ds, IMAGE_CHANNEL)
  else
    do! effect (print "no data available, using MNIST dataset instead");
    let IMAGE_CHANNEL := 1 in
    let IN_PATH := MNIST_PATH in
    do ds <- library (MNIST env IN_PATH true);
    ret (ds, IMAGE_CHANNEL).

(** [assert dataset]: a dataset is true when its length is not zero. *)
Definition assert_dataset (ds : list Img) : M unit :=
  match ds with
  | [] => raise AssertionError
  | _ :: _ => ret ()
  end.

Definition new_netG (channels : nat) : M ParamG :=
  do p <- draw (Generator channels Z_DIM G_HIDDEN);
  do! effect (emit (EvNew NetG channels));
  do! effect (print (repr_netG p));
  ret p.

Definition new_netD (channels : nat) : M ParamD :=
  do p <- draw (Discriminator channels D_HIDDEN);
  do! effect (emit (EvNew NetD channels));
  do! effect (print (repr_netD p));
  ret p.

(** "create log file and write outputs": the folder is emptied, then
    [sys.stdout] is rebound; [sys.stderr] is left as it is. *)
Definition open_log : M unit :=
  do! effect (clear_folder OUT_PATH);
  do! effect (print ("Logging to " +:+ path_str LOG_FILE +:+ nl));
  do! effect (StdOut_open LOG_FILE);
  effect (set_stdout (StdOut LOG_FILE)).

(** Versions, seed and training parameters.  Seeding numpy and CUDA and
    setting [cudnn.benchmark] touch nothing that is modelled; the one
    generator of the model is seeded by [torch.manual_seed]. *)
Definition announce (bsz epochs : nat) (env : Env) : M unit :=
  let CUDA := true && cuda_is_available env in
  do! effect (print ("PyTorch version: " +:+ torch_version env));
  do! (if CUDA then effect (print ("CUDA version: " +:+ cuda_version env +:+ nl))
       else ret ());
  do! effect (print ("Random Seed: " +:+ pretty SEED +:+ nl));
  do! effect (set_rng (manual_seed SEED));
  do! effect (print ("Learning rate: " +:+ LR_str));
  do! effect (print ("Batch size: " +:+ pretty bsz));
  effect (print ("Epochs: " +:+ pretty epochs +:+ nl)).

(** Dataset, networks, visualization noise, optimizers. *)
Definition build (bsz : nat) (env : Env) : M State :=
  do loaded <- load_dataset env;
  let '(ds, IMAGE_CHANNEL) := loaded in
  do! assert_dataset ds;
  do! effect (print ("Number of training images: " +:+ pretty (length ds) +:+ nl));
  do pG <- new_netG IMAGE_CHANNEL;
  do pD <- new_netD IMAGE_CHANNEL;
  do viz <- draw (λ r, randn r bsz Z_DIM);
  λ w, (inr (mkState w ds viz pG pD zeroG zeroD (Adam_G pG) (Adam_D pD)), w).

(** Everything before the loops. *)
Definition startup (bsz epochs : nat) (env : Env) : M State :=
  do! open_log;
  do! announce bsz epochs env;
  build bsz env.

(** * The whole process *)

Record Outcome := mkOutcome { exit_code : Z; final : World }.

Definition boot (env : Env) : World :=
  mkWorld (env_fs env) Console [] [] (env_rng env) [].

(** The interpreter runs the script; an exception nobody catches is reported
    as a traceback on [sys.stderr] and the exit status is 1, otherwise the
    script falls off its end and the status is 0. *)
Definition run (ag : Autograd) (bsz epochs : nat) (env : Env) : Outcome :=
  match startup bsz epochs env (boot env) with
  | (inl e, w) => mkOutcome 1 (to_stderr (Traceback e) w)
  | (inr s, _) => mkOutcome 0 (world (train ag bsz epochs s))
  end.


End Script.

(** * A small executable instance

    Integers stand for parameters and gradients, the optimizer subtracts the
    gradient, the generator is a counter.  It is used to run the script on
    concrete inputs. *)

Module Toy.

Definition toy : Torch := {|
  Img := nat; Noise := nat; Prob := Z; Scalar := Z;
  ParamG := Z; ParamD := Z; GradG := Z; GradD := Z;
  OptG := nat; OptD := nat; Rng := nat;
  zeroG := 0%Z; addG := Z.add; zeroD := 0%Z; addD := Z.add;
  manual_seed := Z.to_nat;
  randn := λ r n _, (r + n, S r);
  shuffle := λ r l, (reverse l, S r);
  Generator := λ c _ _ r, (Z.of_nat c, S r);
  Discriminator := λ c _ r, (Z.of_nat (10 * c), S r);
  repr_netG := λ p, "Generator " +:+ pretty p;
  repr_netD := λ p, "Discriminator " +:+ pretty p;
  netG_forward := λ p z, [Z.to_nat p; z];
  netD_forward := λ p x, (p + Z.of_nat (length x))%Z;
  BCELoss := λ y lbl, (y + foldr Z.add 0 lbl)%Z;
  item_str := pretty;
  Adam_D := λ _, 0;
  Adam_G := λ _, 0;
  Adam_step_D := λ o p g, (S o, (p - g)%Z);
  Adam_step_G := λ o p g, (S o, (p - g)%Z);
  shuffle_perm := λ _ l, reverse_Permutation l
|}.

(** The Generator's gradient in its own step depends on the Discriminator it
    is scored by; [k] is what the fake step sends to the Discriminator and
    [j] what it would send to the Generator. *)
Definition toy_ag (k j : Z) : @Autograd toy :=
  @mkAutograd toy
    (λ pd x l, (1%Z, 0%Z))
    (λ pd pg z l, (k, j))
    (λ pd pg z l, (5%Z, pd)).

(** A disk holding what an earlier run left in the output folder. *)
Definition old_disk : gmap Path (@File toy) :=
  <[joinpath OUT_PATH [netG_pth 7] := @FStateG toy 42%Z]>
    (<[joinpath OUT_PATH ["log.txt"] := @FLog toy [Text "old"]]>
       (<[["elsewhere"; "notes.txt"] := @FLog toy [Text "keep"]]> ∅)).

(** No primary input folder; the digit dataset has [n] samples. *)
Definition toy_env (n : nat) : @Env toy :=
  @mkEnv toy old_disk 0 false "2.0" "none"
    (λ _, false)
    (λ _, inl (Raised "FileNotFoundError"))
    (λ _ _, inr (seq 0 n)).

(** The primary input folder exists and loads as [r]; the digit dataset
    would have three samples. *)
Definition toy_env_primary (r : Exn + list nat) : @Env toy :=
  @mkEnv toy old_disk 0 false "2.0" "none"
    (λ _, true)
    (λ _, r)
    (λ _ _, inr [1; 2; 3]).

(** Another digit loader, with one sample. *)
Definition other_digits : Path → bool → Exn + list (@Img toy) :=
  λ _ _, inr [9].

(** A training state to start a single batch from. *)
Definition toy_state : @State toy :=
  @mkState toy (@mkWorld toy ∅ (StdOut LOG_FILE) [] [] 0 []) [1; 2; 3] 0
           3%Z 30%Z 0%Z 0%Z 0 0.

End Toy.

(** * Notions used in the statements *)

(** The optimizer and autograd calls of one batch, in order. *)
Definition batch_pattern : list Event :=
  [EvZeroGrad NetD; EvBackward LossDReal; EvBackward LossDFake; EvStep NetD;
   EvZeroGrad NetG; EvBackward LossG; EvStep NetG].

(** Classes of recorded events. *)
Definition is_autograd (e : Event) : bool :=
  match e with
  | EvZeroGrad _ | EvBackward _ | EvStep _ => true
  | _ => false
  end.

Definition is_step (n : Net) (e : Event) : bool := bool_decide (e = EvStep n).



(** The construction of a network. *)
Definition is_new (e : Event) : bool :=
  match e with
  | EvNew _ _ => true
  | _ => false
  end.

Definition is_batch (e : Event) : bool :=
  match e with
  | EvBatch _ _ _ _ _ => true
  | _ => false
  end.

(** A write of a sample image: a file whose name starts with "real" or
    "fake". *)
Definition is_sample_write (e : Event) : bool :=
  match e with
  | EvWrite p => match last p with
                 | Some name => String.prefix "real" name || String.prefix "fake" name
                 | None => false
                 end
  | _ => false
  end.

(** The sample images written by batch [i] of [epoch]. *)
Definition sample_writes (epoch i : nat) : list Event :=
  if bool_decide (i `mod` 100 = 0) then
    [EvWrite (joinpath OUT_PATH [real_samples_png]);
     EvWrite (joinpath OUT_PATH [fake_samples_png epoch])]
  else [].

(** The texts printed so far, in order. *)
Definition printed (tr : list Event) : list string :=
  omap (λ e, match e with EvPrint t => Some t | _ => None end) tr.

(** The events of the periodic report of batch [i]. *)
Definition report_events (epoch i : nat) (line : string) : list Event :=
  if bool_decide (i `mod` 100 = 0) then
    [EvPrint line;
     EvWrite (joinpath OUT_PATH [real_samples_png]);
     EvWrite (joinpath OUT_PATH [fake_samples_png epoch])]
  else [].

(** The process as a transition system.  After the log is open the process
    changes by four moves only.  [step W E] is one such move, where [W]
    bounds the paths that are written and [E] the ghost events that are
    recorded. *)
Inductive step `{T : Torch} (W : Path → Prop) (E : Event → Prop) : World → World → Prop :=
| step_emit e w : E e → step W E w (emit e w)
| step_rng r w : step W E w (set_rng r w)
| step_print t w : step W E w (print t w)
| step_write p c w : W p → (∀ ls, c ≠ FLog ls) → step W E w (write_file p c w).

Definition steps `{T : Torch} (W : Path → Prop) (E : Event → Prop)
    : World → World → Prop := rtc (step W E).


(** The paths written while training epoch [epoch]. *)
Definition batch_paths (epoch : nat) (p : Path) : Prop :=
  p = joinpath OUT_PATH [real_samples_png] ∨ p = joinpath OUT_PATH [fake_samples_png epoch].

Definition epoch_paths (epoch : nat) (p : Path) : Prop :=
  batch_paths epoch p ∨ p = joinpath OUT_PATH [netG_pth epoch] ∨
  p = joinpath OUT_PATH [netD_pth epoch].

(** The ghost events of training: a batch is announced with label tensors
    filled with the two label constants. *)
Definition train_event (e : Event) : Prop :=
  match e with
  | EvBatch _ _ n rl fl => rl = replicate n REAL_LABEL ∧ fl = replicate n FAKE_LABEL
  | EvZeroGrad _ | EvBackward _ | EvStep _ => True
  | _ => False
  end.

(** The ghost events of startup after the folder was cleared. *)
Definition build_event (e : Event) : Prop :=
  match e with
  | EvNew _ _ => True
  | _ => False
  end.

(** A startup phase that moves the process by steps which write no file and
    record nothing but the construction of the networks. *)
Definition msteps `{T : Torch} {A} (E : Event → Prop) (m : M A) : Prop :=
  ∀ w r w', m w = (r, w') → steps (λ _, False) E w w'.

(** The process right after "create log file and write outputs". *)
Definition logged `{T : Torch} (env : Env) : World :=
  set_stdout (StdOut LOG_FILE)
    (StdOut_open LOG_FILE
       (print ("Logging to " +:+ path_str LOG_FILE +:+ nl)
          (clear_folder OUT_PATH (boot env)))).

(** The paths written and the ghost events recorded by a whole run. *)
Definition run_paths (epochs : nat) (p : Path) : Prop :=
  ∃ e, e < epochs ∧ epoch_paths e p.

Definition run_event (e : Event) : Prop := build_event e ∨ train_event e.

(** A batch announced with label tensors filled with the two constants. *)
Definition labels_ok (e : Event) : Prop :=
  match e with
  | EvBatch _ _ n rl fl => rl = replicate n REAL_LABEL ∧ fl = replicate n FAKE_LABEL
  | _ => True
  end.

Section Notions.
Context `{T : Torch}.
Implicit Types (w : World) (s : State) (ag : Autograd) (env : Env).

(** The noise drawn in a batch. *)
Definition batch_noise s (data : list Img) : Noise :=
  (randn (rng (world s)) (length data) Z_DIM).1.

(** The Discriminator's side of a batch: the gradient handed to its
    optimizer. *)
Definition batch_grad_D ag s (data : list Img) : GradD :=
  gsumD [(grad_D_real ag (paramsD s) data (replicate (length data) REAL_LABEL)).1;
         (grad_D_fake ag (paramsD s) (paramsG s) (batch_noise s data)
                      (replicate (length data) FAKE_LABEL)).1].

(** The Generator's side: its gradient comes from [loss_G] alone, taken at
    the Discriminator as updated in this batch. *)
Definition batch_grad_G ag s (data : list Img) : GradG :=
  gsumG [(grad_G ag (Adam_step_D (optD s) (paramsD s) (batch_grad_D ag s data)).2
                 (paramsG s) (batch_noise s data)
                 (replicate (length data) REAL_LABEL)).2].

(** The three loss tensors of a batch, with the graphs they were built by. *)
Definition batch_loss_D_real s (data : list Img) : Tensor Scalar :=
  mkTensor (BCELoss (netD_forward (paramsD s) data) (replicate (length data) REAL_LABEL))
           (Crit (ByD Leaf) Leaf).
Definition batch_loss_D_fake s (data : list Img) : Tensor Scalar :=
  mkTensor (BCELoss (netD_forward (paramsD s)
                       (netG_forward (paramsG s) (batch_noise s data)))
                    (replicate (length data) FAKE_LABEL))
           (Crit (ByD (Detached (ByG Leaf))) Leaf).
Definition batch_loss_G ag s (data : list Img) : Tensor Scalar :=
  mkTensor (BCELoss (netD_forward
                       (Adam_step_D (optD s) (paramsD s) (batch_grad_D ag s data)).2
                       (netG_forward (paramsG s) (batch_noise s data)))
                    (replicate (length data) REAL_LABEL))
           (Crit (ByD (ByG Leaf)) Leaf).

(** The state after the three updates of a batch, before its report. *)
Definition batch_state ag (epoch i : nat) (data : list Img) s : State :=
  let stepD := Adam_step_D (optD s) (paramsD s) (batch_grad_D ag s data) in
  let gen := grad_G ag stepD.2 (paramsG s) (batch_noise s data)
                    (replicate (length data) REAL_LABEL) in
  let stepG := Adam_step_G (optG s) (paramsG s) (batch_grad_G ag s data) in
  mkState
    (foldl (λ w e, emit e w)
       (set_rng (randn (rng (world s)) (length data) Z_DIM).2
          (foldl (λ w e, emit e w) (world s)
             [EvBatch epoch i (length data) (replicate (length data) REAL_LABEL)
                      (replicate (length data) FAKE_LABEL);
              EvZeroGrad NetD; EvBackward LossDReal]))
       [EvBackward LossDFake; EvStep NetD; EvZeroGrad NetG; EvBackward LossG;
        EvStep NetG])
    (dataset s) (viz_noise s) stepG.2 stepD.2
    (batch_grad_G ag s data) (addD (batch_grad_D ag s data) gen.1)
    stepG.1 stepD.1.





(** What the loader of the branch taken returns. *)
Definition chosen_loader env : Exn + list Img :=
  if path_exists env IN_PATH then ImageFolder env IN_PATH
  else MNIST env MNIST_PATH true.

(** The environment with another fallback loader. *)
Definition with_MNIST (m : Path → bool → Exn + list Img) env : Env :=
  mkEnv (env_fs env) (env_rng env) (cuda_is_available env) (torch_version env)
        (cuda_version env) (path_exists env) (ImageFolder env) m.

(** The channel count in force after the dataset was chosen. *)
Definition channels_of env : nat :=
  if path_exists env IN_PATH then IMAGE_CHANNEL else 1.

(** [ds] is what the loader of the branch taken returned. *)
Definition loaded_from env (ds : list Img) : Prop :=
  (path_exists env IN_PATH = true ∧ ImageFolder env IN_PATH = inr ds) ∨
  (path_exists env IN_PATH = false ∧ MNIST env MNIST_PATH true = inr ds).

End Notions.

Arguments emit : simpl never.
Arguments set_rng : simpl never.
Arguments set_fs : simpl never.
Arguments print : simpl never.
Arguments write_file : simpl never.
Arguments save_image : simpl never.
Arguments clear_folder : simpl never.
Arguments StdOut_open : simpl never.
Arguments set_stdout : simpl never.
Arguments to_stderr : simpl never.
Arguments joinpath : simpl never.

(** * File names *)

Lemma append_cons c (s t : string) : String c s +:+ t = String c (s +:+ t).
Proof. reflexivity. Qed.

Lemma append_nil (t : string) : "" +:+ t = t.
Proof. reflexivity. Qed.

Lemma length_append (s1 s2 : string) :
  String.length (s1 +:+ s2) = String.length s1 + String.length s2.
Proof.
  induction s1 as [|c s1 IH]; [done|].
  rewrite append_cons. simpl. by rewrite IH.
Qed.

Lemma append_inj_r (t s1 s2 : string) : s1 +:+ t = s2 +:+ t → s1 = s2.
Proof.
  revert s2. induction s1 as [|c s1 IH]; intros [|d s2] E.
  - done.
  - apply (f_equal String.length) in E.
    rewrite !length_append in E. simpl in E. lia.
  - apply (f_equal String.length) in E.
    rewrite !length_append in E. simpl in E. lia.
  - rewrite !append_cons in E. injection E as -> E. f_equal. by apply IH.
Qed.

Ltac peel_names :=
  unfold fake_samples_png, netG_pth, netD_pth, real_samples_png;
  rewrite ?append_cons, ?append_nil.

Lemma fake_samples_png_inj e e' : fake_samples_png e = fake_samples_png e' → e = e'.
Proof.
  peel_names. intros E. simplify_eq.
  by apply append_inj_r, (inj pretty) in E.
Qed.



Lemma out_file_inj (a b : string) :
  joinpath OUT_PATH [a] = joinpath OUT_PATH [b] → a = b.
Proof. unfold joinpath. intros E. apply app_inv_head in E. by simplify_eq. Qed.

Lemma out_file_under (a : string) : OUT_PATH `prefix_of` joinpath OUT_PATH [a].
Proof. by exists [a]. Qed.

(** The kinds of file the script writes never share a name. *)
Lemma names_apart e e' :
  fake_samples_png e ≠ real_samples_png ∧ netG_pth e ≠ real_samples_png ∧
  netD_pth e ≠ real_samples_png ∧ netG_pth e ≠ fake_samples_png e' ∧
  netD_pth e ≠ fake_samples_png e' ∧ netG_pth e ≠ netD_pth e' ∧
  real_samples_png ≠ "log.txt" ∧ fake_samples_png e ≠ "log.txt" ∧
  netG_pth e ≠ "log.txt" ∧ netD_pth e ≠ "log.txt".
Proof.
  peel_names. repeat split; intros E; discriminate E.
Qed.

(** * What the primitive operations do to each part of the process *)

Section Primitives.
Context `{T : Torch}.
Implicit Types (w : World) (s : State) (p : Path) (e : Event).

Lemma trace_emit e w : trace (emit e w) = trace w ++ [e].
Proof. done. Qed.
Lemma trace_set_rng r w : trace (set_rng r w) = trace w.
Proof. done. Qed.
Lemma trace_print t w : trace (print t w) = trace w ++ [EvPrint t].
Proof. unfold print, write_stdout. by destruct (sys_stdout _). Qed.
Lemma trace_write_file p c w : trace (write_file p c w) = trace w ++ [EvWrite p].
Proof. done. Qed.
Lemma trace_save_image x p w : trace (save_image x p w) = trace w ++ [EvWrite p].
Proof. done. Qed.

Lemma rng_emit e w : rng (emit e w) = rng w.
Proof. done. Qed.
Lemma rng_set_rng r w : rng (set_rng r w) = r.
Proof. done. Qed.
Lemma rng_print t w : rng (print t w) = rng w.
Proof. unfold print, write_stdout. by destruct (sys_stdout _). Qed.
Lemma rng_write_file p c w : rng (write_file p c w) = rng w.
Proof. done. Qed.
Lemma rng_save_image x p w : rng (save_image x p w) = rng w.
Proof. done. Qed.

Lemma stdout_emit e w : sys_stdout (emit e w) = sys_stdout w.
Proof. done. Qed.
Lemma stdout_set_rng r w : sys_stdout (set_rng r w) = sys_stdout w.
Proof. done. Qed.
Lemma stdout_print t w : sys_stdout (print t w) = sys_stdout w.
Proof. unfold print, write_stdout. by destruct (sys_stdout (emit _ w)). Qed.
Lemma stdout_write_file p c w : sys_stdout (write_file p c w) = sys_stdout w.
Proof. done. Qed.

Lemma err_print t w : console_err (print t w) = console_err w.
Proof. unfold print, write_stdout. by destruct (sys_stdout _). Qed.

Lemma fs_emit e w : fs (emit e w) = fs w.
Proof. done. Qed.
Lemma fs_set_rng r w : fs (set_rng r w) = fs w.
Proof. done. Qed.
Lemma fs_write_file p c w : fs (write_file p c w) = <[p := c]> (fs w).
Proof. done. Qed.
Lemma fs_save_image x p w : fs (save_image x p w) = <[p := FImage x]> (fs w).
Proof. done. Qed.
Lemma fs_print t w :
  fs (print t w) = match sys_stdout w with
                   | Console => fs w
                   | StdOut f => append_log f (Text t) (fs w)
                   end.
Proof.
  unfold print, write_stdout.
  change (sys_stdout (emit (EvPrint t) w)) with (sys_stdout w).
  by destruct (sys_stdout w).
Qed.

Lemma lookup_append_log_ne (f : Path) (o : Output) (d : gmap Path File) p :
  f ≠ p → append_log f o d !! p = d !! p.
Proof.
  intros Hne. unfold append_log.
  destruct (d !! f) as [[]|]; by rewrite lookup_insert_ne.
Qed.

(** A print leaves every file but the log behind [sys.stdout] alone. *)
Lemma fs_print_other t w p : sys_stdout w ≠ StdOut p → fs (print t w) !! p = fs w !! p.
Proof.
  intros Hne. rewrite fs_print. destruct (sys_stdout w) as [|f]; [done|].
  apply lookup_append_log_ne. congruence.
Qed.

End Primitives.

Ltac world_simpl :=
  repeat progress rewrite ?trace_emit, ?trace_set_rng, ?trace_print, ?trace_write_file, ?trace_save_image,
    ?rng_emit, ?rng_set_rng, ?rng_print, ?rng_write_file, ?rng_save_image,
    ?stdout_emit, ?stdout_set_rng, ?stdout_print, ?stdout_write_file,
    ?fs_emit, ?fs_set_rng, ?fs_write_file, ?fs_save_image.

(** * One batch *)

Section Batch.
Context `{T : Torch}.
Implicit Types (w : World) (s : State) (ag : Autograd).

Lemma report_nets epoch i total x lr lf lg s :
  let s' := report epoch i total x lr lf lg s in
  paramsG s' = paramsG s ∧ paramsD s' = paramsD s ∧ optG s' = optG s ∧
  optD s' = optD s ∧ gradG s' = gradG s ∧ gradD s' = gradD s ∧
  dataset s' = dataset s ∧ viz_noise s' = viz_noise s.
Proof. unfold report. by case_bool_decide. Qed.

Lemma report_trace epoch i total x lr lf lg s :
  trace (world (report epoch i total x lr lf lg s)) =
  trace (world s) ++
  report_events epoch i (report_line epoch i total (val lr) (val lf) (val lg)).
Proof.
  unfold report, report_events. case_bool_decide; simpl.
  - world_simpl. by rewrite <- !app_assoc.
  - by rewrite app_nil_r.
Qed.

Lemma train_batch_unfold ag epoch i total data s :
  train_batch ag epoch i total data s =
  report epoch i total (mkTensor data Leaf)
    (batch_loss_D_real s data) (batch_loss_D_fake s data) (batch_loss_G ag s data)
    (batch_state ag epoch i data s).
Proof.
  unfold train_batch, update_D_real, update_D_fake, update_G, torch_randn,
    netD, netG, criterion, detach, torch_full, zero_grad, backward, optimizer_step,
    on_world, set_grads, batch_state, batch_loss_D_real, batch_loss_D_fake,
    batch_loss_G, batch_grad_G, batch_grad_D, batch_noise, gsumD, gsumG.
  simpl.
  destruct (randn _ _ _) as [z r]. simpl.
  destruct (Adam_step_D _ _ _) as [oD pD]. simpl.
  by destruct (Adam_step_G _ _ _) as [oG pG].
Qed.

Lemma train_batch_D ag epoch i total data s :
  let s' := train_batch ag epoch i total data s in
  (optD s', paramsD s') = Adam_step_D (optD s) (paramsD s) (batch_grad_D ag s data).
Proof.
  simpl. rewrite train_batch_unfold.
  destruct (report_nets epoch i total (mkTensor data Leaf)
    (batch_loss_D_real s data) (batch_loss_D_fake s data) (batch_loss_G ag s data)
    (batch_state ag epoch i data s)) as (_ & -> & _ & -> & _).
  simpl. by destruct (Adam_step_D _ _ _).
Qed.

Lemma train_batch_G ag epoch i total data s :
  let s' := train_batch ag epoch i total data s in
  (optG s', paramsG s') = Adam_step_G (optG s) (paramsG s) (batch_grad_G ag s data).
Proof.
  simpl. rewrite train_batch_unfold.
  destruct (report_nets epoch i total (mkTensor data Leaf)
    (batch_loss_D_real s data) (batch_loss_D_fake s data) (batch_loss_G ag s data)
    (batch_state ag epoch i data s)) as (-> & _ & -> & _).
  simpl. by destruct (Adam_step_G _ _ _).
Qed.

Lemma train_batch_frame ag epoch i total data s :
  let s' := train_batch ag epoch i total data s in
  dataset s' = dataset s ∧ viz_noise s' = viz_noise s.
Proof.
  simpl. rewrite train_batch_unfold.
  by destruct (report_nets epoch i total (mkTensor data Leaf)
    (batch_loss_D_real s data) (batch_loss_D_fake s data) (batch_loss_G ag s data)
    (batch_state ag epoch i data s)) as (_ & _ & _ & _ & _ & _ & -> & ->).
Qed.

(** The calls of one batch, in order. *)
Lemma train_batch_trace ag epoch i total data s :
  trace (world (train_batch ag epoch i total data s)) =
  trace (world s) ++
  EvBatch epoch i (length data) (replicate (length data) REAL_LABEL)
          (replicate (length data) FAKE_LABEL)
  :: batch_pattern ++
  report_events epoch i
    (report_line epoch i total (val (batch_loss_D_real s data))
       (val (batch_loss_D_fake s data)) (val (batch_loss_G ag s data))).
Proof.
  rewrite train_batch_unfold, report_trace. simpl. world_simpl.
  by rewrite <- !app_assoc.
Qed.

End Batch.

(** * What sequences of steps preserve *)

Section Steps.
Context `{T : Torch}.
Implicit Types (w : World) (s : State) (ag : Autograd) (W : Path → Prop)
  (E : Event → Prop).

Lemma steps_refl W E w : steps W E w w.
Proof. apply rtc_refl. Qed.

Lemma steps_trans W E w1 w2 w3 : steps W E w1 w2 → steps W E w2 w3 → steps W E w1 w3.
Proof. apply rtc_trans. Qed.

Lemma steps_once W E w w' : step W E w w' → steps W E w w'.
Proof. apply rtc_once. Qed.

Lemma steps_mono W W' E E' w w' :
  (∀ p, W p → W' p) → (∀ e, E e → E' e) → steps W E w w' → steps W' E' w w'.
Proof.
  intros HW HE. induction 1 as [|w1 w2 w3 H12 _ IH]; [apply rtc_refl|].
  eapply rtc_l; [|exact IH]. destruct H12; constructor; auto.
Qed.

Lemma steps_stdout W E w w' : steps W E w w' → sys_stdout w' = sys_stdout w.
Proof.
  induction 1 as [|w1 w2 w3 H12 _ IH]; [done|]. rewrite IH.
  destruct H12; by world_simpl.
Qed.

Lemma steps_err W E w w' : steps W E w w' → console_err w' = console_err w.
Proof.
  induction 1 as [|w1 w2 w3 H12 _ IH]; [done|]. rewrite IH.
  destruct H12; try done. apply err_print.
Qed.


(** Every recorded event is a print, a write to an allowed path, or one of
    the allowed ghost events. *)
Lemma steps_events W E (P : Event → Prop) w w' :
  steps W E w w' →
  (∀ e, E e → P e) → (∀ t, P (EvPrint t)) → (∀ p, W p → P (EvWrite p)) →
  Forall P (trace w) → Forall P (trace w').
Proof.
  intros Hs HE Hp HW. induction Hs as [|w1 w2 w3 H12 _ IH]; [done|].
  intros Hw. apply IH.
  destruct H12; world_simpl; try done; apply Forall_app; split; try done;
    repeat constructor; auto.
Qed.

(** A file that is neither the log behind [sys.stdout] nor among the written
    paths is left as it was. *)
Lemma steps_fs_other W E w w' p :
  steps W E w w' → sys_stdout w ≠ StdOut p → ¬ W p → fs w' !! p = fs w !! p.
Proof.
  induction 1 as [|w1 w2 w3 H12 H23 IH]; [done|]. intros Hout HW.
  rewrite IH; [| |done].
  - destruct H12 as [| | |q c w1 Hq _]; world_simpl; try done.
    + by apply fs_print_other.
    + apply lookup_insert_ne. by intros ->.
  - replace (sys_stdout w2) with (sys_stdout w1); [done|].
    symmetry. eapply steps_stdout, steps_once, H12.
Qed.



Lemma lookup_append_log_some (f : Path) (o : Output) (d : gmap Path File) p :
  is_Some (d !! p) → is_Some (append_log f o d !! p).
Proof.
  intros Hs. destruct (decide (f = p)) as [->|Hne].
  - unfold append_log. destruct (d !! p) as [[]|]; by rewrite lookup_insert_eq.
  - by rewrite lookup_append_log_ne.
Qed.

(** No step deletes a file. *)
Lemma steps_fs_some W E w w' p :
  steps W E w w' → is_Some (fs w !! p) → is_Some (fs w' !! p).
Proof.
  induction 1 as [|w1 w2 w3 H12 _ IH]; [done|]. intros Hs. apply IH.
  destruct H12 as [| |t w1|q c w1 _ _]; world_simpl; try done.
  - rewrite fs_print. destruct (sys_stdout w1); [done|].
    by apply lookup_append_log_some.
  - destruct (decide (q = p)) as [->|Hne].
    + by rewrite lookup_insert_eq.
    + by rewrite lookup_insert_ne.
Qed.



End Steps.

(** * The loader *)

Section Loader.
Context {A : Type}.
Implicit Types (l : list A).

Lemma length_batches bsz l : length (batches bsz l) = num_batches bsz (length l).
Proof. unfold batches. by rewrite length_fmap, length_seq. Qed.

Lemma batches_lookup bsz l k x :
  batches bsz l !! k = Some x →
  k < num_batches bsz (length l) ∧ x = take bsz (drop (k * bsz) l).
Proof.
  unfold batches. rewrite list_lookup_fmap. intros E.
  destruct (seq 0 _ !! k) as [j|] eqn:Ej; [|done].
  apply lookup_seq in Ej as [-> Hk]. simpl in E. by simplify_eq.
Qed.

Lemma num_batches_bound bsz n k : k < num_batches bsz n → k * bsz < n.
Proof.
  unfold num_batches. intros Hk. destruct bsz as [|b]; [simpl in Hk; lia|].
  assert (S b * ((n + S b - 1) / S b) ≤ n + S b - 1) by (apply Nat.Div0.mul_div_le).
  nia.
Qed.

(** Every batch the loader yields is non-empty and holds [bsz] samples,
    except that the last one holds what is left. *)
Lemma batch_size bsz l k x :
  batches bsz l !! k = Some x →
  length x = bsz `min` (length l - k * bsz) ∧ 0 < length x.
Proof.
  intros [Hk ->]%batches_lookup. rewrite length_take, length_drop.
  split; [done|]. apply num_batches_bound in Hk as Hlt.
  destruct bsz; [unfold num_batches in Hk; simpl in Hk|]; lia.
Qed.

Lemma num_batches_pos bsz n : 0 < bsz → 0 < n → 0 < num_batches bsz n.
Proof.
  intros Hb Hn. unfold num_batches.
  apply Nat.div_str_pos. lia.
Qed.

End Loader.

(** * The loops *)

Section Loops.
Context `{T : Torch}.
Implicit Types (w : World) (s : State) (ag : Autograd).

Lemma report_steps epoch i total x lr lf lg s :
  steps (batch_paths epoch) train_event (world s) (world (report epoch i total x lr lf lg s)).
Proof.
  unfold report. case_bool_decide; [|apply steps_refl]. simpl. unfold save_image.
  eapply rtc_r; [|apply step_write; [by right | done]].
  eapply rtc_r; [|apply step_write; [by left | done]].
  apply rtc_once, step_print.
Qed.

Lemma train_batch_steps ag epoch i total data s :
  steps (batch_paths epoch) train_event (world s) (world (train_batch ag epoch i total data s)).
Proof.
  rewrite train_batch_unfold.
  eapply steps_trans; [|apply report_steps]. simpl.
  repeat (eapply rtc_r; [|first [by apply step_emit | apply step_rng]]).
  apply rtc_refl.
Qed.

Lemma for_batches_steps ag epoch i total bs s :
  steps (batch_paths epoch) train_event (world s) (world (for_batches ag epoch i total bs s)).
Proof.
  revert i s. induction bs as [|x bs IH]; intros i s; simpl; [apply steps_refl|].
  eapply steps_trans; [apply train_batch_steps | apply IH].
Qed.

Lemma for_batches_frame ag epoch i total bs s :
  let s' := for_batches ag epoch i total bs s in
  dataset s' = dataset s ∧ viz_noise s' = viz_noise s.
Proof.
  revert i s. induction bs as [|x bs IH]; intros i s; simpl; [done|].
  destruct (IH (S i) (train_batch ag epoch i total x s)) as [-> ->].
  apply train_batch_frame.
Qed.

Lemma train_epoch_unfold ag bsz epoch s :
  train_epoch ag bsz epoch s =
  let bs := batches bsz (shuffle (rng (world s)) (dataset s)).1 in
  let s1 := on_world (set_rng (shuffle (rng (world s)) (dataset s)).2) s in
  let s2 := for_batches ag epoch 0 (length bs) bs s1 in
  torch_save NetD (joinpath OUT_PATH [netD_pth epoch])
    (torch_save NetG (joinpath OUT_PATH [netG_pth epoch]) s2).
Proof. unfold train_epoch. by destruct (shuffle _ _). Qed.

Lemma train_epoch_steps ag bsz epoch s :
  steps (epoch_paths epoch) train_event (world s) (world (train_epoch ag bsz epoch s)).
Proof.
  rewrite train_epoch_unfold. simpl.
  unfold torch_save. simpl.
  eapply rtc_r; [|apply step_write; [right; by right | done]].
  eapply rtc_r; [|apply step_write; [right; by left | done]].
  eapply steps_trans; [apply steps_once, (step_rng _ _ (shuffle (rng (world s)) (dataset s)).2)|].
  eapply steps_mono;
    [|done|apply (for_batches_steps ag epoch 0 _ _
               (on_world (set_rng (shuffle (rng (world s)) (dataset s)).2) s))].
  intros p Hp. by left.
Qed.

Lemma train_epoch_frame ag bsz epoch s :
  let s' := train_epoch ag bsz epoch s in
  dataset s' = dataset s ∧ viz_noise s' = viz_noise s.
Proof.
  simpl. rewrite train_epoch_unfold. simpl.
  match goal with |- context [for_batches ?a ?b ?c ?d ?e ?f] =>
    destruct (for_batches_frame a b c d e f) as [-> ->] end.
  done.
Qed.

Lemma train_S ag bsz n s :
  train ag bsz (S n) s = train_epoch ag bsz n (train ag bsz n s).
Proof. unfold train. by rewrite seq_S, foldl_app. Qed.

Lemma train_frame ag bsz n s :
  let s' := train ag bsz n s in
  dataset s' = dataset s ∧ viz_noise s' = viz_noise s.
Proof.
  simpl. induction n as [|n [IH1 IH2]]; [done|]. rewrite train_S.
  destruct (train_epoch_frame ag bsz n (train ag bsz n s)) as [-> ->]. done.
Qed.

Lemma train_steps ag bsz n s :
  steps (λ p, ∃ e, e < n ∧ epoch_paths e p) train_event (world s) (world (train ag bsz n s)).
Proof.
  induction n as [|n IH]; [apply steps_refl|]. rewrite train_S.
  eapply steps_trans.
  - eapply steps_mono; [|done|exact IH]. intros p (e & He & Hp). exists e. split; [lia|done].
  - eapply steps_mono; [|done|apply train_epoch_steps]. intros p Hp. exists n. split; [lia|done].
Qed.

(** Later epochs, seen from epoch [n] on. *)
Lemma train_steps_from ag bsz n m s :
  n ≤ m →
  steps (λ p, ∃ e, n ≤ e < m ∧ epoch_paths e p) train_event
       
        (world (train ag bsz n s)) (world (train ag bsz m s)).
Proof.
  induction 1 as [|m Hle IH]; [apply steps_refl|]. rewrite train_S.
  eapply steps_trans.
  - eapply steps_mono; [|done|exact IH]. intros p (e & He & Hp). exists e. split; [lia|done].
  - eapply steps_mono; [|done|apply train_epoch_steps]. intros p Hp. exists m. split; [lia|done].
Qed.

End Loops.

(** * Startup *)

Section Startup.
Context `{T : Torch}.
Implicit Types (w : World) (s : State) (env : Env).

Lemma bind_inv {A B} (m : M A) (k : A → M B) w r w' :
  bind m k w = (r, w') →
  (∃ e, m w = (inl e, w') ∧ r = inl e) ∨ (∃ a w1, m w = (inr a, w1) ∧ k a w1 = (r, w')).
Proof.
  unfold bind. destruct (m w) as [[e|a] w1] eqn:Em.
  - intros [= <- <-]. left. by exists e.
  - intros Ek. right. by exists a, w1.
Qed.

Lemma msteps_ret {A} E (a : A) : msteps E (ret a).
Proof. intros w r w' [= <- <-]. apply steps_refl. Qed.

Lemma msteps_raise {A} E e : msteps E (raise (A := A) e).
Proof. intros w r w' [= <- <-]. apply steps_refl. Qed.

Lemma msteps_library {A} E (x : Exn + A) : msteps E (library x).
Proof. intros w r w' [= <- <-]. apply steps_refl. Qed.

Lemma msteps_bind {A B} E (m : M A) (k : A → M B) :
  msteps E m → (∀ a, msteps E (k a)) → msteps E (bind m k).
Proof.
  intros Hm Hk w r w' [(e & Em & ->)|(a & w1 & Em & Ek)]%bind_inv.
  - by eapply Hm.
  - eapply steps_trans; [by eapply Hm | by eapply Hk].
Qed.

Lemma msteps_print E t : msteps E (effect (print t)).
Proof. intros w r w' [= <- <-]. apply steps_once, step_print. Qed.

Lemma msteps_emit (E : Event → Prop) e : E e → msteps E (effect (emit e)).
Proof. intros He w r w' [= <- <-]. by apply steps_once, step_emit. Qed.

Lemma msteps_set_rng E r0 : msteps E (effect (set_rng r0)).
Proof. intros w r w' [= <- <-]. apply steps_once, step_rng. Qed.

Lemma msteps_draw {A} E (f : Rng → A * Rng) : msteps E (draw f).
Proof.
  intros w r w'. unfold draw. destruct (f (rng w)) as [a r0].
  intros [= <- <-]. apply steps_once, step_rng.
Qed.

(** The announcements record no ghost event. *)
Lemma announce_msteps bsz epochs env : msteps (λ _, False) (announce bsz epochs env).
Proof.
  unfold announce.
  repeat first [apply msteps_bind; [|intros _] | apply msteps_print
               | apply msteps_set_rng | apply msteps_ret].
  destruct (true && _); [apply msteps_print | apply msteps_ret].
Qed.

Lemma announce_ok bsz epochs env w : ∃ w', announce bsz epochs env w = (inr (), w').
Proof.
  unfold announce, bind, effect, ret. destruct (true && _); simpl; eauto.
Qed.

Lemma load_dataset_msteps env : msteps build_event (load_dataset env).
Proof.
  unfold load_dataset. destruct (path_exists env IN_PATH).
  - apply msteps_bind; [apply msteps_library | intros ds; apply msteps_ret].
  - apply msteps_bind; [apply msteps_print | intros _].
    apply msteps_bind; [apply msteps_library | intros ds; apply msteps_ret].
Qed.

Lemma build_msteps bsz env : msteps build_event (build bsz env).
Proof.
  unfold build. apply msteps_bind; [apply load_dataset_msteps | intros [ds c]].
  apply msteps_bind; [destruct ds; [apply msteps_raise | apply msteps_ret] | intros _].
  apply msteps_bind; [apply msteps_print | intros _].
  apply msteps_bind.
  { unfold new_netG.
    apply msteps_bind; [apply msteps_draw | intros p].
    apply msteps_bind; [by apply msteps_emit | intros _].
    apply msteps_bind; [apply msteps_print | intros _; apply msteps_ret]. }
  intros pG. apply msteps_bind.
  { unfold new_netD.
    apply msteps_bind; [apply msteps_draw | intros p].
    apply msteps_bind; [by apply msteps_emit | intros _].
    apply msteps_bind; [apply msteps_print | intros _; apply msteps_ret]. }
  intros pD. apply msteps_bind; [apply msteps_draw | intros viz].
  intros w r w' [= <- <-]. apply steps_refl.
Qed.

Lemma open_log_run w :
  open_log w =
  (inr (), set_stdout (StdOut LOG_FILE)
             (StdOut_open LOG_FILE
                (print ("Logging to " +:+ path_str LOG_FILE +:+ nl)
                   (clear_folder OUT_PATH w)))).
Proof. reflexivity. Qed.

(** Startup either fails or hands over a state; in both cases the process
    got there from [logged env] by build steps. *)
Lemma startup_steps bsz epochs env r w :
  startup bsz epochs env (boot env) = (r, w) →
  steps (λ _, False) build_event (logged env) w.
Proof.
  unfold startup. intros [(e & Em & ->)|(a & w1 & Em & Ek)]%bind_inv.
  { by rewrite open_log_run in Em. }
  rewrite open_log_run in Em. injection Em as <- <-.
  apply bind_inv in Ek as [(e & Em & ->)|(a & w2 & Em & Ek)].
  - apply (steps_mono (λ _, False) (λ _, False) (λ _, False) build_event);
      [done|done|]. by eapply announce_msteps.
  - eapply steps_trans; [|by eapply build_msteps].
    apply (steps_mono (λ _, False) (λ _, False) (λ _, False) build_event);
      [done|done|]. by eapply announce_msteps.
Qed.

Lemma load_dataset_result env w ds c w' :
  load_dataset env w = (inr (ds, c), w') → loaded_from env ds.
Proof.
  unfold load_dataset, loaded_from. destruct (path_exists env IN_PATH).
  - intros [(e & _ & [=])|(ds' & w1 & El & Ek)]%bind_inv.
    injection Ek as <- _ _. injection El as -> _. by left.
  - intros [(e & _ & [=])|([] & w1 & _ & Ek)]%bind_inv.
    apply bind_inv in Ek as [(e & _ & [=])|(ds' & w2 & El & Ek)].
    injection Ek as <- _ _. injection El as -> _. by right.
Qed.

Lemma build_result bsz env w s w' :
  build bsz env w = (inr s, w') →
  world s = w' ∧ dataset s ≠ [] ∧ loaded_from env (dataset s).
Proof.
  unfold build.
  intros [(e & _ & [=])|([ds c] & w1 & El & Ek)]%bind_inv.
  apply load_dataset_result in El.
  apply bind_inv in Ek as [(e & _ & [=])|([] & w2 & Ea & Ek)].
  destruct ds as [|x ds]; [by injection Ea|].
  apply bind_inv in Ek as [(e & _ & [=])|([] & w3 & _ & Ek)].
  apply bind_inv in Ek as [(e & _ & [=])|(pG & w4 & _ & Ek)].
  apply bind_inv in Ek as [(e & _ & [=])|(pD & w5 & _ & Ek)].
  apply bind_inv in Ek as [(e & _ & [=])|(viz & w6 & _ & Ek)].
  by injection Ek as <- <-.
Qed.

Lemma startup_result bsz epochs env s w :
  startup bsz epochs env (boot env) = (inr s, w) →
  world s = w ∧ dataset s ≠ [] ∧ loaded_from env (dataset s).
Proof.
  unfold startup. intros [(e & _ & [=])|(a & w1 & _ & Ek)]%bind_inv.
  apply bind_inv in Ek as [(e & _ & [=])|(a' & w2 & _ & Ek)].
  by eapply build_result.
Qed.


(** [build] when the chosen loader hands over an empty dataset. *)
Lemma build_empty bsz env w :
  loaded_from env [] → ∃ w', build bsz env w = (inl AssertionError, w').
Proof.
  unfold build, load_dataset, assert_dataset, bind, effect, library, ret, raise.
  intros [[-> ->]|[-> ->]]; simpl; eauto.
Qed.

(** [build] when the chosen loader raises. *)
Lemma build_raises bsz env w s w' :
  build bsz env w = (inr s, w') →
  (path_exists env IN_PATH = true → ∃ ds, ImageFolder env IN_PATH = inr ds) ∧
  (path_exists env IN_PATH = false → ∃ ds, MNIST env MNIST_PATH true = inr ds).
Proof.
  intros (_ & _ & [[Hp Hl]|[Hp Hl]])%build_result; split; intros Hq; eauto; congruence.
Qed.

Lemma startup_unfold bsz epochs env :
  ∃ w1, steps (λ _, False) (λ _, False) (logged env) w1 ∧
        startup bsz epochs env (boot env) = build bsz env w1.
Proof.
  destruct (announce_ok bsz epochs env (logged env)) as (w1 & Ea).
  exists w1. split; [by eapply announce_msteps|].
  unfold startup, bind. rewrite open_log_run. fold (logged env). by rewrite Ea.
Qed.

End Startup.

(** * The process once the log is open *)

Section Logged.
Context `{T : Torch}.
Implicit Types (w : World) (env : Env).






Lemma cleared_outside (d : gmap Path File) (p q : Path) :
  ¬ p `prefix_of` q → filter (λ kv, ¬ p `prefix_of` kv.1) d !! q = d !! q.
Proof.
  intros Hpq. destruct (d !! q) as [x|] eqn:E.
  - by apply map_lookup_filter_Some.
  - apply map_lookup_filter_None. by left.
Qed.



Lemma logged_err env : console_err (logged env) = [].
Proof.
  change (console_err (logged env)) with
    (console_err (print ("Logging to " +:+ path_str LOG_FILE +:+ nl)
                    (clear_folder OUT_PATH (boot env)))).
  by rewrite err_print.
Qed.

Lemma logged_trace env :
  trace (logged env) =
  [EvClearFolder OUT_PATH; EvPrint ("Logging to " +:+ path_str LOG_FILE +:+ nl)].
Proof.
  change (trace (logged env)) with
    (trace (print ("Logging to " +:+ path_str LOG_FILE +:+ nl)
              (clear_folder OUT_PATH (boot env)))).
  by rewrite trace_print.
Qed.





End Logged.

(** * The schedule of optimizer calls over the run *)

Section Schedule.
Context `{T : Torch}.
Implicit Types (w : World) (s : State) (ag : Autograd).

Lemma autograd_report_events epoch i line :
  List.filter is_autograd (report_events epoch i line) = [].
Proof. unfold report_events. by case_bool_decide. Qed.

Lemma train_batch_autograd ag epoch i total data s :
  List.filter is_autograd (trace (world (train_batch ag epoch i total data s))) =
  List.filter is_autograd (trace (world s)) ++ batch_pattern.
Proof.
  rewrite train_batch_trace, List.filter_app. f_equal.
  change (?e :: batch_pattern ++ ?r) with ((e :: batch_pattern) ++ r).
  rewrite List.filter_app, autograd_report_events. by rewrite app_nil_r.
Qed.

Lemma for_batches_autograd ag epoch i total bs s :
  List.filter is_autograd (trace (world (for_batches ag epoch i total bs s))) =
  List.filter is_autograd (trace (world s)) ++ concat (replicate (length bs) batch_pattern).
Proof.
  revert i s. induction bs as [|x bs IH]; intros i s.
  - simpl. by rewrite app_nil_r.
  - cbn [for_batches length replicate concat].
    by rewrite IH, train_batch_autograd, <- app_assoc.
Qed.

Lemma train_epoch_autograd ag bsz epoch s :
  List.filter is_autograd (trace (world (train_epoch ag bsz epoch s))) =
  List.filter is_autograd (trace (world s)) ++
  concat (replicate (num_batches bsz (length (dataset s))) batch_pattern).
Proof.
  rewrite train_epoch_unfold. unfold torch_save. simpl. world_simpl.
  rewrite !List.filter_app. simpl. rewrite !app_nil_r.
  rewrite (for_batches_autograd ag epoch 0 _ _
             (on_world (set_rng (shuffle (rng (world s)) (dataset s)).2) s)).
  simpl. world_simpl.
  by rewrite length_batches, (Permutation_length (shuffle_perm _ _)).
Qed.

Lemma train_autograd ag bsz epochs s :
  List.filter is_autograd (trace (world (train ag bsz epochs s))) =
  List.filter is_autograd (trace (world s)) ++
  concat (replicate (epochs * num_batches bsz (length (dataset s))) batch_pattern).
Proof.
  induction epochs as [|n IH].
  - simpl. by rewrite app_nil_r.
  - rewrite train_S, train_epoch_autograd, IH.
    destruct (train_frame ag bsz n s) as [-> _].
    rewrite <- app_assoc. f_equal.
    by rewrite Nat.mul_succ_l, replicate_add, concat_app.
Qed.

Lemma train_batch_announced ag epoch i total data s :
  List.filter is_batch (trace (world (train_batch ag epoch i total data s))) =
  List.filter is_batch (trace (world s)) ++
  [EvBatch epoch i (length data) (replicate (length data) REAL_LABEL)
           (replicate (length data) FAKE_LABEL)].
Proof.
  rewrite train_batch_trace, List.filter_app. f_equal.
  unfold report_events. by case_bool_decide.
Qed.

Lemma for_batches_announced ag epoch i total bs s :
  List.filter is_batch (trace (world (for_batches ag epoch i total bs s))) =
  List.filter is_batch (trace (world s)) ++
  imap (λ j x, EvBatch epoch (i + j) (length x)
                 (replicate (length x) REAL_LABEL) (replicate (length x) FAKE_LABEL)) bs.
Proof.
  revert i s. induction bs as [|x bs IH]; intros i s.
  - simpl. by rewrite app_nil_r.
  - cbn [for_batches imap].
    rewrite IH, train_batch_announced, <- app_assoc, Nat.add_0_r. simpl.
    do 2 f_equal. apply imap_ext. intros j y _. simpl. f_equal. lia.
Qed.

End Schedule.

(** * The whole run *)

Section Run.
Context `{T : Torch}.
Implicit Types (w : World) (s : State) (ag : Autograd) (env : Env).

Lemma run_failure ag bsz epochs env e w :
  startup bsz epochs env (boot env) = (inl e, w) →
  run ag bsz epochs env = mkOutcome 1 (to_stderr (Traceback e) w).
Proof. unfold run. by intros ->. Qed.

Lemma run_success ag bsz epochs env s w :
  startup bsz epochs env (boot env) = (inr s, w) →
  run ag bsz epochs env = mkOutcome 0 (world (train ag bsz epochs s)).
Proof. unfold run. by intros ->. Qed.

Lemma epoch_paths_under e p : epoch_paths e p → OUT_PATH `prefix_of` p.
Proof. intros [[->| ->]|[->| ->]]; apply out_file_under. Qed.



(** Whether startup fails or training completes, the disk, the trace and
    [sys.stdout] the process ends with were reached from [logged env] by
    steps of the run. *)
Lemma run_steps ag bsz epochs env :
  ∃ w, steps (run_paths epochs) run_event (logged env) w ∧
       fs (final (run ag bsz epochs env)) = fs w ∧
       trace (final (run ag bsz epochs env)) = trace w.
Proof.
  destruct (startup bsz epochs env (boot env)) as [[e|s] w] eqn:Es.
  - exists w. rewrite (run_failure _ _ _ _ _ _ Es). split; [|done].
    eapply steps_mono; [| |by eapply startup_steps]; [done|by left].
  - destruct (startup_result _ _ _ _ _ Es) as (<- & _).
    exists (world (train ag bsz epochs s)).
    rewrite (run_success _ _ _ _ _ _ Es). split; [|done].
    eapply steps_trans.
    + eapply steps_mono; [| |by eapply startup_steps]; [done|by left].
    + eapply steps_mono; [| |apply train_steps]; [done|by right].
Qed.










Lemma train_stdout ag bsz n s : sys_stdout (world (train ag bsz n s)) = sys_stdout (world s).
Proof. eapply steps_stdout, train_steps. Qed.

(** A file that the epochs from [n] up to [m] do not write is, after epoch
    [m], what it was after epoch [n]. *)
Lemma train_keeps ag bsz n m s p :
  sys_stdout (world s) = StdOut LOG_FILE → p ≠ LOG_FILE → n ≤ m →
  (∀ e, n ≤ e < m → ¬ epoch_paths e p) →
  fs (world (train ag bsz m s)) !! p = fs (world (train ag bsz n s)) !! p.
Proof.
  intros Hout Hp Hnm Hno.
  eapply steps_fs_other; [by apply train_steps_from | |].
  - rewrite train_stdout, Hout. congruence.
  - intros (e & He & Hw). by eapply Hno.
Qed.



Lemma epoch_paths_fake e e' :
  epoch_paths e' (joinpath OUT_PATH [fake_samples_png e]) → e' = e.
Proof.
  destruct (names_apart e e') as (?&?&?&?&?&?&?&?&?&?).
  destruct (names_apart e' e) as (?&?&?&?&?&?&?&?&?&?).
  intros [[Hp|Hp]|[Hp|Hp]]; apply out_file_inj in Hp; try congruence.
  symmetry. by apply fake_samples_png_inj.
Qed.

Lemma startup_stdout bsz epochs env s w :
  startup bsz epochs env (boot env) = (inr s, w) →
  sys_stdout (world s) = StdOut LOG_FILE.
Proof.
  intros Es. destruct (startup_result _ _ _ _ _ Es) as (-> & _).
  by rewrite (steps_stdout _ _ _ _ (startup_steps _ _ _ _ _ Es)).
Qed.


(** What a reporting batch leaves on disk. *)
Lemma train_batch_report_fs ag epoch i total data s :
  i `mod` 100 = 0 →
  let s1 := train_batch ag epoch i total data s in
  fs (world s1) !! joinpath OUT_PATH [real_samples_png] = Some (FImage data) ∧
  fs (world s1) !! joinpath OUT_PATH [fake_samples_png epoch] =
    Some (FImage (netG_forward (paramsG s1) (viz_noise s))).
Proof.
  intros Hi. simpl. rewrite train_batch_unfold. unfold report.
  rewrite bool_decide_eq_true_2 by done. simpl. world_simpl. split.
  - rewrite lookup_insert_ne, lookup_insert_eq; [done|].
    intros Hp%out_file_inj. by destruct (names_apart epoch epoch) as (Hn&_).
  - by rewrite lookup_insert_eq.
Qed.

(** A batch that does not report leaves the disk alone. *)
Lemma train_batch_quiet_fs ag epoch i total data s :
  i `mod` 100 ≠ 0 →
  fs (world (train_batch ag epoch i total data s)) = fs (world s).
Proof.
  intros Hi. rewrite train_batch_unfold. unfold report.
  rewrite bool_decide_eq_false_2 by done. simpl. by world_simpl.
Qed.

(** With a non-empty dataset every epoch leaves its fake-sample grid. *)
Lemma train_epoch_fake_some ag bsz epoch s :
  0 < bsz → dataset s ≠ [] →
  is_Some (fs (world (train_epoch ag bsz epoch s)) !!
             joinpath OUT_PATH [fake_samples_png epoch]).
Proof.
  intros Hb Hd. rewrite train_epoch_unfold. unfold torch_save. simpl. world_simpl.
  destruct (names_apart epoch epoch) as (_&_&_&HG&HD&_).
  rewrite !lookup_insert_ne by (intros Hp%out_file_inj; congruence).
  destruct (batches bsz (shuffle (rng (world s)) (dataset s)).1) as [|x bs] eqn:Eb.
  { apply (f_equal length) in Eb. rewrite length_batches in Eb.
    rewrite (Permutation_length (shuffle_perm _ _)) in Eb.
    assert (0 < length (dataset s)) by (destruct (dataset s); [done|simpl; lia]).
    pose proof (num_batches_pos bsz (length (dataset s)) Hb H). simpl in Eb. lia. }
  cbn [for_batches].
  eapply steps_fs_some; [apply for_batches_steps|].
  edestruct (train_batch_report_fs ag epoch 0 (length (x :: bs)) x) as [_ Hf];
    [done|]. simpl in Hf. simpl. by rewrite Hf.
Qed.



End Run.

(** * The claims *)

Section Claims.
Context `{T : Torch}.
Implicit Types (w : World) (s : State) (ag : Autograd) (env : Env).

(** C1. In every batch the Discriminator is stepped exactly once, after both
    backward passes: its optimizer receives the sum of the real-loss gradient
    and the fake-loss gradient, both taken at the parameters the batch
    started with (no update in between), and the optimizer calls of a batch
    are, in this order, zero_grad D, backward real, backward fake, step D,
    zero_grad G, backward G, step G.  Over the whole training the calls are
    this pattern once per batch of every epoch. *)
Theorem C1_discriminator_stepped_once_on_summed_gradients
    ag bsz epochs epoch i total data s :
  (let s' := train_batch ag epoch i total data s in
   let z_noise := (randn (rng (world s)) (length data) Z_DIM).1 in
   let g_real := (grad_D_real ag (paramsD s) data
                    (replicate (length data) REAL_LABEL)).1 in
   let g_fake := (grad_D_fake ag (paramsD s) (paramsG s) z_noise
                    (replicate (length data) FAKE_LABEL)).1 in
   (optD s', paramsD s') = Adam_step_D (optD s) (paramsD s) (gsumD [g_real; g_fake]) ∧
   List.filter is_autograd (trace (world s')) =
   List.filter is_autograd (trace (world s)) ++ batch_pattern ∧
   List.filter (is_step NetD) (trace (world s')) =
   List.filter (is_step NetD) (trace (world s)) ++ [EvStep NetD]) ∧
  List.filter is_autograd (trace (world (train ag bsz epochs s))) =
  List.filter is_autograd (trace (world s)) ++
  concat (replicate (epochs * num_batches bsz (length (dataset s))) batch_pattern).
Proof.
  split; [|apply train_autograd]. repeat split.
  - apply train_batch_D.
  - apply train_batch_autograd.
  - rewrite train_batch_trace, List.filter_app. f_equal.
    unfold report_events. by case_bool_decide.
Qed.

(** C2 (amended). In every batch the Generator is stepped exactly once, and
    its optimizer receives the gradient of [loss_G] alone (the regenerated
    fakes scored against the real label), taken at the Discriminator as
    already updated in this batch.  The discriminator-fake sub-step changes
    neither the Generator's parameters nor its gradient fields nor its
    optimizer, because the fake images are detached; so two runs that differ
    only in what the fake loss would send back into the Generator end the
    batch in the same state. *)
Theorem C2_generator_stepped_once_fake_step_blocked
    ag ag' epoch i total data s :
  let s' := train_batch ag epoch i total data s in
  let z_noise := (randn (rng (world s)) (length data) Z_DIM).1 in
  let g_real := (grad_D_real ag (paramsD s) data
                   (replicate (length data) REAL_LABEL)).1 in
  let g_fake := (grad_D_fake ag (paramsD s) (paramsG s) z_noise
                   (replicate (length data) FAKE_LABEL)).1 in
  let paramsD' := (Adam_step_D (optD s) (paramsD s) (gsumD [g_real; g_fake])).2 in
  let g_gen := (grad_G ag paramsD' (paramsG s) z_noise
                  (replicate (length data) REAL_LABEL)).2 in
  (optG s', paramsG s') = Adam_step_G (optG s) (paramsG s) (gsumG [g_gen]) ∧
  List.filter (is_step NetG) (trace (world s')) =
  List.filter (is_step NetG) (trace (world s)) ++ [EvStep NetG] ∧
  (∀ x n v s0,
     let s1 := (update_D_fake ag x (torch_full n v) s0).2 in
     paramsG s1 = paramsG s0 ∧ gradG s1 = gradG s0 ∧ optG s1 = optG s0) ∧
  (grad_D_real ag' = grad_D_real ag →
   grad_G ag' = grad_G ag →
   (∀ pd pg z l, (grad_D_fake ag' pd pg z l).1 = (grad_D_fake ag pd pg z l).1) →
   train_batch ag' epoch i total data s = s').
Proof.
  repeat split.
  - apply train_batch_G.
  - rewrite train_batch_trace, List.filter_app. f_equal.
    unfold report_events. by case_bool_decide.
  - unfold update_D_fake, torch_randn. destruct (randn _ _ _) as [z r]. simpl.
    by destruct (Adam_step_D _ _ _).
  - unfold update_D_fake, torch_randn. destruct (randn _ _ _) as [z r]. simpl.
    by destruct (Adam_step_D _ _ _).
  - unfold update_D_fake, torch_randn. destruct (randn _ _ _) as [z r]. simpl.
    by destruct (Adam_step_D _ _ _).
  - intros Hr Hg Hf. rewrite !train_batch_unfold.
    assert (batch_grad_D ag' s data = batch_grad_D ag s data) as HD.
    { unfold batch_grad_D. by rewrite Hr, Hf. }
    assert (batch_grad_G ag' s data = batch_grad_G ag s data) as HG.
    { unfold batch_grad_G. by rewrite Hg, HD. }
    unfold batch_state, batch_loss_G. by rewrite HD, HG, Hg.
Qed.

(** C3. In every epoch, for every batch the loader yields, the last and
    possibly short one included, the real-label tensor and the fake-label
    tensor built for that batch have as many entries as the batch has
    images; the batches announced in the trace are exactly the loader's. *)
Theorem C3_label_tensors_match_batch ag bsz epoch s :
  let bs := batches bsz (shuffle (rng (world s)) (dataset s)).1 in
  List.filter is_batch (trace (world (train_epoch ag bsz epoch s))) =
  List.filter is_batch (trace (world s)) ++
  imap (λ i x, EvBatch epoch i (length x)
                 (val (torch_full (length x) REAL_LABEL))
                 (val (torch_full (length x) FAKE_LABEL))) bs ∧
  (∀ i x, bs !! i = Some x →
     length (val (torch_full (length x) REAL_LABEL)) = length x ∧
     length (val (torch_full (length x) FAKE_LABEL)) = length x ∧
     length x = bsz `min` (length (dataset s) - i * bsz) ∧ 0 < length x).
Proof.
  simpl. split.
  - rewrite train_epoch_unfold. unfold torch_save. simpl. world_simpl.
    rewrite !List.filter_app. simpl. rewrite !app_nil_r.
    rewrite (for_batches_announced ag epoch 0 _ _
               (on_world (set_rng (shuffle (rng (world s)) (dataset s)).2) s)).
    simpl. by world_simpl.
  - intros i x Hx. rewrite !length_replicate.
    apply batch_size in Hx as [Hlen Hpos].
    by rewrite (Permutation_length (shuffle_perm _ _)) in Hlen.
Qed.

(** C4. The value filling the real-label tensor and the value filling the
    fake-label tensor are the same two constants in every batch of the run,
    and the two constants differ: no entry of a real-label tensor equals an
    entry of a fake-label tensor. *)
Theorem C4_label_values_constant_and_distinct ag bsz epochs env epoch i n rl fl :
  EvBatch epoch i n rl fl ∈ trace (final (run ag bsz epochs env)) →
  rl = replicate n REAL_LABEL ∧ fl = replicate n FAKE_LABEL ∧
  REAL_LABEL ≠ FAKE_LABEL ∧ (∀ a b, a ∈ rl → b ∈ fl → a ≠ b).
Proof.
  intros Hin. destruct (run_steps ag bsz epochs env) as (w & Hs & _ & Ht).
  rewrite Ht in Hin.
  assert (Forall labels_ok (trace w)) as Hall.
  { eapply (steps_events _ _ labels_ok _ _ Hs); try done.
    - intros [] [Hb|Ht']; try done.
    - rewrite logged_trace. by repeat constructor. }
  rewrite Forall_forall in Hall. destruct (Hall _ Hin) as [-> ->].
  repeat split; [done|].
  intros a b ->%elem_of_replicate_inv ->%elem_of_replicate_inv. done.
Qed.



(** C7. A dataset with no sample never reaches the training loop: whenever
    startup hands a state over to the loops, its dataset is non-empty and is
    the one the chosen loader returned; an empty dataset from the chosen
    loader stops startup with an assertion failure; and when neither source
    yields a sample (each raises or is empty) the process ends with status 1
    before any batch was started or any optimizer call made. *)
Theorem C7_empty_dataset_aborts_startup ag bsz epochs env :
  (∀ s w, startup bsz epochs env (boot env) = (inr s, w) →
     dataset s ≠ [] ∧ loaded_from env (dataset s)) ∧
  (loaded_from env [] →
     ∃ w, startup bsz epochs env (boot env) = (inl AssertionError, w)) ∧
  ((∀ ds, ImageFolder env IN_PATH = inr ds → ds = []) →
   (∀ ds, MNIST env MNIST_PATH true = inr ds → ds = []) →
   ∃ e w, startup bsz epochs env (boot env) = (inl e, w) ∧
     exit_code (run ag bsz epochs env) = 1%Z ∧
     Forall (λ ev, is_batch ev = false ∧ is_autograd ev = false)
            (trace (final (run ag bsz epochs env)))).
Proof.
  repeat split.
  - by destruct (startup_result _ _ _ _ _ H) as (_ & ? & _).
  - by destruct (startup_result _ _ _ _ _ H) as (_ & _ & ?).
  - intros Hl. destruct (startup_unfold bsz epochs env) as (w1 & _ & ->).
    by apply build_empty.
  - intros HI HM.
    destruct (startup bsz epochs env (boot env)) as [[e|s] w] eqn:Es.
    + exists e, w. split; [done|]. rewrite (run_failure _ _ _ _ _ _ Es).
      split; [done|]. simpl.
      change (trace (to_stderr (Traceback e) w)) with (trace w).
      eapply (steps_events _ _ _ _ _ (startup_steps _ _ _ _ _ Es)); try done.
      * by intros [].
      * rewrite logged_trace. by repeat constructor.
    + destruct (startup_result _ _ _ _ _ Es) as (_ & Hne & [[_ Hl]|[_ Hl]]).
      * by apply HI in Hl.
      * by apply HM in Hl.
Qed.

(** C8. Every periodic report, in whatever epoch, writes the current real
    batch to the one file real_samples.png, replacing what was there, and
    the Generator's output on the fixed visualization noise to
    fake_samples_<epoch>.png; a batch that does not report writes nothing.
    The fake-sample file of an epoch is, at the end of the run, exactly what
    it was when its epoch ended: no later epoch writes it, because different
    epochs have different file names; and with a non-empty dataset every
    epoch leaves one. *)
Theorem C8_real_snapshot_overwritten_fake_kept ag bsz epochs env s w :
  startup bsz epochs env (boot env) = (inr s, w) →
  let out := run ag bsz epochs env in
  (∀ epoch i total data s0, i `mod` 100 = 0 →
     let s1 := train_batch ag epoch i total data s0 in
     fs (world s1) !! joinpath OUT_PATH [real_samples_png] = Some (FImage data) ∧
     fs (world s1) !! joinpath OUT_PATH [fake_samples_png epoch] =
       Some (FImage (netG_forward (paramsG s1) (viz_noise s0)))) ∧
  (∀ epoch i total data s0, i `mod` 100 ≠ 0 →
     fs (world (train_batch ag epoch i total data s0)) = fs (world s0)) ∧
  (∀ e, e < epochs →
     fs (final out) !! joinpath OUT_PATH [fake_samples_png e] =
     fs (world (train ag bsz (S e) s)) !! joinpath OUT_PATH [fake_samples_png e]) ∧
  (0 < bsz → ∀ e, e < epochs →
     is_Some (fs (final out) !! joinpath OUT_PATH [fake_samples_png e])) ∧
  (∀ e e', fake_samples_png e = fake_samples_png e' → e = e') ∧
  (∀ e, fake_samples_png e ≠ real_samples_png).
Proof.
  intros Es. simpl. rewrite (run_success _ _ _ _ _ _ Es). simpl.
  pose proof (startup_stdout _ _ _ _ _ Es) as Hout.
  destruct (startup_result _ _ _ _ _ Es) as (Hw & Hne & _).
  assert (∀ e, e < epochs →
     fs (world (train ag bsz epochs s)) !! joinpath OUT_PATH [fake_samples_png e] =
     fs (world (train ag bsz (S e) s)) !! joinpath OUT_PATH [fake_samples_png e])
    as Hkept.
  { intros e He. apply train_keeps; [done| |lia|].
    - intros Hp%out_file_inj.
      by destruct (names_apart e e) as (_&_&_&_&_&_&_&Hn&_).
    - intros e' He' ->%epoch_paths_fake. lia. }
  split; [intros; by apply train_batch_report_fs|].
  split; [intros; by apply train_batch_quiet_fs|].
  split; [done|].
  split.
  { intros Hb e He. rewrite Hkept by done. rewrite train_S.
    apply train_epoch_fake_some; [done|].
    by destruct (train_frame ag bsz e s) as [-> _]. }
  split; [apply fake_samples_png_inj|].
  intros e. by destruct (names_apart e e) as (Hn&_).
Qed.



End Claims.

(** * The claims on concrete runs

    The runs below use the small instance: no primary input folder, a digit
    dataset of a given size, a disk that still holds files of an earlier
    run. *)

Import Toy.

(** C2, as first stated, fails: two batches that differ only in the
    gradient the fake step gives the Discriminator end with different
    Generator parameters, because the Generator's own loss is taken at the
    Discriminator that this gradient has just updated. *)
Lemma C2_fake_gradient_changes_generator :
  grad_D_real (toy_ag 0 0) = grad_D_real (toy_ag 1 0) ∧
  grad_G (toy_ag 0 0) = grad_G (toy_ag 1 0) ∧
  paramsG (train_batch (toy_ag 0 0) 0 0 1 [7] toy_state) = (-26)%Z ∧
  paramsG (train_batch (toy_ag 1 0) 0 0 1 [7] toy_state) = (-25)%Z ∧
  paramsG (train_batch (toy_ag 0 0) 0 0 1 [7] toy_state) ≠
  paramsG (train_batch (toy_ag 1 0) 0 0 1 [7] toy_state).
Proof. repeat split; vm_compute; congruence. Qed.

(** C2 (amended) at a pair of oracles that differ only in what the fake loss
    would send into the Generator. *)
Lemma C2_witness :
  train_batch (toy_ag 0 9) 0 0 1 [7] toy_state =
  train_batch (toy_ag 0 0) 0 0 1 [7] toy_state.
Proof.
  destruct (C2_generator_stepped_once_fake_step_blocked (T := toy)
              (toy_ag 0 0) (toy_ag 0 9) 0 0 1 [7] toy_state) as (_ & _ & _ & Hsame).
  apply Hsame; [reflexivity | reflexivity | intros; reflexivity].
Defined.

(** C3 at the short last batch of three samples in batches of two. *)
Lemma C3_witness :
  length (val (torch_full (length [1]) REAL_LABEL)) = length [1] ∧
  length (val (torch_full (length [1]) FAKE_LABEL)) = length [1] ∧
  length [1] = 2 `min` (3 - 1 * 2) ∧ 0 < length [1].
Proof.
  destruct (C3_label_tensors_match_batch (T := toy) (toy_ag 0 0) 2 0 toy_state)
    as (_ & Hlen).
  apply (Hlen 1 [1]). reflexivity.
Defined.

(** C4 at the first batch of a run over three samples. *)
Lemma C4_witness :
  [1; 1]%Z = replicate 2 REAL_LABEL ∧ [0; 0]%Z = replicate 2 FAKE_LABEL ∧
  REAL_LABEL ≠ FAKE_LABEL ∧
  (∀ a b : Z, a ∈ [1; 1]%Z → b ∈ [0; 0]%Z → a ≠ b).
Proof.
  apply (C4_label_values_constant_and_distinct (T := toy)
           (toy_ag 0 0) 2 1 (toy_env 3) 0 0 2).
  apply (bool_decide_unpack _). vm_compute. exact I.
Defined.



(** C7 on an environment where neither source yields a sample. *)
Lemma C7_witness :
  ∃ e w, startup 2 2 (toy_env 0) (boot (toy_env 0)) = (inl e, w) ∧
    exit_code (run (toy_ag 0 0) 2 2 (toy_env 0)) = 1%Z ∧
    Forall (λ ev, is_batch ev = false ∧ is_autograd ev = false)
           (trace (final (run (toy_ag 0 0) 2 2 (toy_env 0)))).
Proof.
  destruct (C7_empty_dataset_aborts_startup (T := toy) (toy_ag 0 0) 2 2 (toy_env 0))
    as (_ & _ & Habort).
  apply Habort.
  - intros ds Hds. discriminate Hds.
  - intros ds Hds. injection Hds as <-. reflexivity.
Defined.

(** C8 on a run of two epochs over five samples: the grid of epoch 0 is
    there at the end. *)
Lemma C8_witness :
  is_Some (fs (final (run (toy_ag 0 0) 2 2 (toy_env 5))) !!
             joinpath OUT_PATH [fake_samples_png 0]).
Proof.
  edestruct (C8_real_snapshot_overwritten_fake_kept (T := toy)
               (toy_ag 0 0) 2 2 (toy_env 5)) as (_ & _ & _ & Hsome & _).
  { reflexivity. }
  apply Hsome; lia.
Defined.




(** * Further properties of the script *)

Section Further.
Context `{T : Torch}.
Implicit Types (w : World) (s : State) (ag : Autograd) (env : Env).

(** ** The loader *)

Lemma chunks_concat {A} (bsz n : nat) (l : list A) :
  length l ≤ n * bsz →
  concat ((λ k, take bsz (drop (k * bsz) l)) <$> seq 0 n) = l.
Proof.
  revert l. induction n as [|n IH]; intros l Hl.
  - simpl in *. symmetry. apply nil_length_inv. lia.
  - cbn [seq fmap list_fmap concat]. rewrite <- fmap_S_seq, <- list_fmap_compose.
    rewrite (list_fmap_ext _ (λ k, take bsz (drop (k * bsz) (drop bsz l)))).
    + rewrite IH; [apply take_drop|]. rewrite length_drop. lia.
    + intros i k _. simpl. by rewrite drop_drop.
Qed.

Lemma num_batches_covers bsz n : 0 < bsz → n ≤ num_batches bsz n * bsz.
Proof.
  intros Hb. unfold num_batches.
  pose proof (Nat.div_mod_eq (n + bsz - 1) bsz).
  pose proof (Nat.mod_upper_bound (n + bsz - 1) bsz). nia.
Qed.

Lemma batches_concat {A} bsz (l : list A) : 0 < bsz → concat (batches bsz l) = l.
Proof. intros Hb. apply chunks_concat. by apply num_batches_covers. Qed.

Lemma batches_full {A} bsz (l : list A) i x :
  batches bsz l !! i = Some x → S i < length (batches bsz l) → length x = bsz.
Proof.
  intros Hx Hi. rewrite length_batches in Hi.
  apply num_batches_bound in Hi. apply batch_size in Hx as [-> _]. lia.
Qed.

(** X1. With a positive batch size, the batches an epoch iterates over are
    cut from a reshuffling of the dataset: put end to end they are a
    permutation of it, so every sample is trained on exactly once per
    epoch; there are ceil(n / batch size) of them; every batch but the
    last holds exactly the batch size, and none is empty or larger. *)
Theorem X1_epoch_batches_partition_dataset bsz s :
  0 < bsz →
  let bs := batches bsz (shuffle (rng (world s)) (dataset s)).1 in
  concat bs ≡ₚ dataset s ∧
  length bs = num_batches bsz (length (dataset s)) ∧
  (∀ i x, bs !! i = Some x → S i < length bs → length x = bsz) ∧
  (∀ i x, bs !! i = Some x → 0 < length x ≤ bsz).
Proof.
  intros Hb. simpl. repeat split.
  - rewrite batches_concat by done. apply shuffle_perm.
  - by rewrite length_batches, (Permutation_length (shuffle_perm _ _)).
  - intros i x. apply batches_full.
  - by apply batch_size in H as [_ ?].
  - apply batch_size in H as [-> _]. lia.
Qed.

(** ** Gradient fields *)

(** X2. What a batch does is independent of the gradient fields it starts
    with: each network's fields are zeroed before its backward passes, so
    nothing accumulated earlier enters an update.  After the batch netG's
    fields hold the gradient of [loss_G] alone, while netD's hold the two
    Discriminator gradients plus what [loss_G.backward()] sent through the
    Discriminator, which is never zeroed before the next batch starts. *)
Theorem X2_stale_gradients_never_enter_an_update ag epoch i total data s gg gd :
  let s' := train_batch ag epoch i total data s in
  let z_noise := (randn (rng (world s)) (length data) Z_DIM).1 in
  let g_real := (grad_D_real ag (paramsD s) data
                   (replicate (length data) REAL_LABEL)).1 in
  let g_fake := (grad_D_fake ag (paramsD s) (paramsG s) z_noise
                   (replicate (length data) FAKE_LABEL)).1 in
  let paramsD' := (Adam_step_D (optD s) (paramsD s) (gsumD [g_real; g_fake])).2 in
  let g_gen := grad_G ag paramsD' (paramsG s) z_noise
                 (replicate (length data) REAL_LABEL) in
  train_batch ag epoch i total data (set_grads gg gd s) = s' ∧
  gradG s' = gsumG [g_gen.2] ∧
  gradD s' = addD (gsumD [g_real; g_fake]) g_gen.1.
Proof.
  simpl. rewrite !train_batch_unfold. split; [reflexivity|].
  destruct (report_nets epoch i total (mkTensor data Leaf)
    (batch_loss_D_real s data) (batch_loss_D_fake s data) (batch_loss_G ag s data)
    (batch_state ag epoch i data s)) as (_ & _ & _ & _ & -> & -> & _).
  done.
Qed.

(** ** Startup *)

Lemma announce_rng bsz epochs env w r w' :
  announce bsz epochs env w = (r, w') → rng w' = manual_seed SEED.
Proof.
  unfold announce, bind, effect, ret.
  destruct (true && _); simpl; intros [= _ <-]; by world_simpl.
Qed.

Lemma build_initial bsz env w s w' :
  build bsz env w = (inr s, w') →
  let g := Generator (channels_of env) Z_DIM G_HIDDEN (rng w) in
  let d := Discriminator (channels_of env) D_HIDDEN g.2 in
  let v := randn d.2 bsz Z_DIM in
  paramsG s = g.1 ∧ paramsD s = d.1 ∧ viz_noise s = v.1 ∧ rng (world s) = v.2 ∧
  gradG s = zeroG ∧ gradD s = zeroD ∧ optG s = Adam_G g.1 ∧ optD s = Adam_D d.1.
Proof.
  unfold build, load_dataset, channels_of, new_netG, new_netD, assert_dataset,
    bind, effect, library, ret, raise, draw.
  destruct (path_exists env IN_PATH); simpl.
  - destruct (ImageFolder env IN_PATH) as [e|[|x ds]]; simpl; [done|done|].
    world_simpl.
    destruct (Generator _ _ _ _) as [pG r1]. simpl. world_simpl.
    destruct (Discriminator _ _ _) as [pD r2]. simpl. world_simpl.
    destruct (randn _ _ _) as [viz r3]. simpl. by intros [= <- <-].
  - destruct (MNIST env MNIST_PATH true) as [e|[|x ds]]; simpl; [done|done|].
    world_simpl.
    destruct (Generator _ _ _ _) as [pG r1]. simpl. world_simpl.
    destruct (Discriminator _ _ _) as [pD r2]. simpl. world_simpl.
    destruct (randn _ _ _) as [viz r3]. simpl. by intros [= <- <-].
Qed.

(** X3. Every run starts from fresh parameters that are a function of the
    seed and of the channel count alone: the generator is seeded before
    anything is drawn, so the Generator's initial parameters, then the
    Discriminator's, then the visualization noise are the first three draws
    after [torch.manual_seed(SEED)], whatever the disk held and whatever
    state the random generator was in; gradients start at zero and the
    optimizers are created on the initial parameters. *)
Theorem X3_initial_state_from_seed bsz epochs env s w :
  startup bsz epochs env (boot env) = (inr s, w) →
  let g := Generator (channels_of env) Z_DIM G_HIDDEN (manual_seed SEED) in
  let d := Discriminator (channels_of env) D_HIDDEN g.2 in
  let v := randn d.2 bsz Z_DIM in
  paramsG s = g.1 ∧ paramsD s = d.1 ∧ viz_noise s = v.1 ∧ rng (world s) = v.2 ∧
  gradG s = zeroG ∧ gradD s = zeroD ∧ optG s = Adam_G g.1 ∧ optD s = Adam_D d.1.
Proof.
  unfold startup. intros [(e & _ & [=])|(a & w1 & _ & Ek)]%bind_inv.
  apply bind_inv in Ek as [(e & _ & [=])|(a' & w2 & Ea & Ek)].
  apply announce_rng in Ea. apply build_initial in Ek. by rewrite Ea in Ek.
Qed.

Lemma announce_quiet bsz epochs env w r w' :
  announce bsz epochs env w = (r, w') →
  List.filter is_new (trace w) = [] → List.filter is_new (trace w') = [].
Proof.
  unfold announce, bind, effect, ret.
  destruct (true && _); simpl; intros [= _ <-]; world_simpl;
    rewrite !List.filter_app; simpl; intros ->; done.
Qed.

(** The trace at the point where [build] starts holds no construction. *)
Lemma startup_unfold_quiet bsz epochs env :
  ∃ w1, startup bsz epochs env (boot env) = build bsz env w1 ∧
        List.filter is_new (trace w1) = [] ∧ console_err w1 = [].
Proof.
  destruct (announce_ok bsz epochs env (logged env)) as (w1 & Ea).
  exists w1. split; [|split].
  - unfold startup, bind. rewrite open_log_run. fold (logged env). by rewrite Ea.
  - eapply announce_quiet; [exact Ea|]. by rewrite logged_trace.
  - rewrite (steps_err _ _ _ _ (announce_msteps _ _ _ _ _ _ Ea)). apply logged_err.
Qed.


(** X5. When the primary input folder exists the fallback dataset plays no
    part: startup ends the same way whatever the digit loader would
    return.  In particular a primary folder that fails to load stops the
    run with the loader's exception, and one that loads empty stops it with
    an assertion failure, even when the fallback has data. *)
Theorem X5_existing_primary_never_falls_back bsz epochs env m :
  path_exists env IN_PATH = true →
  startup bsz epochs (with_MNIST m env) (boot (with_MNIST m env)) =
    startup bsz epochs env (boot env) ∧
  (∀ e, ImageFolder env IN_PATH = inl e →
     ∃ w, startup bsz epochs env (boot env) = (inl e, w)) ∧
  (ImageFolder env IN_PATH = inr [] →
     ∃ w, startup bsz epochs env (boot env) = (inl AssertionError, w)).
Proof.
  intros Hp. split; [|split].
  - unfold startup, build, load_dataset, announce, boot, with_MNIST. simpl.
    by rewrite Hp.
  - intros e HI. destruct (startup_unfold bsz epochs env) as (w1 & _ & ->).
    unfold build, load_dataset, bind, library. rewrite Hp, HI. eauto.
  - intros HI. destruct (startup_unfold bsz epochs env) as (w1 & _ & ->).
    apply build_empty. left. by split.
Qed.

(** X6. An exception raised by the loader of the branch taken is not
    caught: the process ends with status 1 and that exception's traceback
    on standard error, and neither network has been constructed. *)
Theorem X6_loader_exception_propagates ag bsz epochs env e :
  chosen_loader env = inl e →
  let out := run ag bsz epochs env in
  (∃ w, startup bsz epochs env (boot env) = (inl e, w)) ∧
  exit_code out = 1%Z ∧ console_err (final out) = [Traceback e] ∧
  List.filter is_new (trace (final out)) = [].
Proof.
  intros Hl. simpl.
  destruct (startup_unfold_quiet bsz epochs env) as (w1 & Est & Hq & Herr).
  assert (∃ w, build bsz env w1 = (inl e, w) ∧
               List.filter is_new (trace w) = [] ∧ console_err w = [])
    as (w & Eb & Hn & He).
  { unfold chosen_loader in Hl.
    unfold build, load_dataset, bind, effect, library.
    destruct (path_exists env IN_PATH); rewrite Hl; simpl.
    - by exists w1.
    - eexists. split; [reflexivity|]. world_simpl.
      rewrite List.filter_app, Hq, err_print. done. }
  rewrite Eb in Est. split; [by exists w|].
  rewrite (run_failure _ _ _ _ _ _ Est). simpl.
  change (console_err (to_stderr (Traceback e) w)) with (console_err w ++ [Traceback e]).
  change (trace (to_stderr (Traceback e) w)) with (trace w).
  by rewrite He, Hn.
Qed.

(** ** The visualization noise *)

Lemma train_batch_grid ag epoch i total data s :
  (∃ p, fs (world s) !! joinpath OUT_PATH [fake_samples_png epoch] =
          Some (FImage (netG_forward p (viz_noise s)))) ∨ i `mod` 100 = 0 →
  ∃ p, fs (world (train_batch ag epoch i total data s)) !!
         joinpath OUT_PATH [fake_samples_png epoch] =
       Some (FImage (netG_forward p (viz_noise s))).
Proof.
  intros Hpre. destruct (decide (i `mod` 100 = 0)) as [Hi|Hi].
  - eexists. by apply train_batch_report_fs.
  - destruct Hpre as [Hpre|?]; [|done]. by rewrite train_batch_quiet_fs.
Qed.

Lemma for_batches_grid ag epoch i total bs s :
  (∃ p, fs (world s) !! joinpath OUT_PATH [fake_samples_png epoch] =
          Some (FImage (netG_forward p (viz_noise s)))) ∨
  (bs ≠ [] ∧ i `mod` 100 = 0) →
  bs ≠ [] ∨ (∃ p, fs (world s) !! joinpath OUT_PATH [fake_samples_png epoch] =
                    Some (FImage (netG_forward p (viz_noise s)))) →
  ∃ p, fs (world (for_batches ag epoch i total bs s)) !!
         joinpath OUT_PATH [fake_samples_png epoch] =
       Some (FImage (netG_forward p (viz_noise s))).
Proof.
  revert i s. induction bs as [|x bs IH]; intros i s Hpre Hne.
  - simpl. destruct Hne as [?|?]; done.
  - cbn [for_batches].
    assert (∃ p, fs (world (train_batch ag epoch i total x s)) !!
                   joinpath OUT_PATH [fake_samples_png epoch] =
                 Some (FImage (netG_forward p (viz_noise s)))) as Hx.
    { apply train_batch_grid. destruct Hpre as [?|[_ ?]]; auto. }
    destruct (train_batch_frame ag epoch i total x s) as [_ Hv].
    rewrite <- Hv in Hx |- *. apply IH; auto.
Qed.

Lemma train_epoch_grid ag bsz epoch s :
  0 < bsz → dataset s ≠ [] →
  ∃ p, fs (world (train_epoch ag bsz epoch s)) !!
         joinpath OUT_PATH [fake_samples_png epoch] =
       Some (FImage (netG_forward p (viz_noise s))).
Proof.
  intros Hb Hd. rewrite train_epoch_unfold. unfold torch_save. simpl. world_simpl.
  destruct (names_apart epoch epoch) as (_&_&_&HG&HD&_).
  rewrite !lookup_insert_ne by (intros Hp%out_file_inj; congruence).
  assert (batches bsz (shuffle (rng (world s)) (dataset s)).1 ≠ []) as Hbs.
  { intros Eb. apply (f_equal length) in Eb. rewrite length_batches in Eb.
    rewrite (Permutation_length (shuffle_perm _ _)) in Eb.
    assert (0 < length (dataset s)) as Hlen
      by (destruct (dataset s); [done|simpl; lia]).
    pose proof (num_batches_pos bsz (length (dataset s)) Hb Hlen). simpl in Eb. lia. }
  apply (for_batches_grid ag epoch 0 _ _
           (on_world (set_rng (shuffle (rng (world s)) (dataset s)).2) s)).
  - right. by split.
  - by left.
Qed.

(** X7. The visualization noise is drawn once, at startup, and training
    never changes it; with a positive batch size every fake-sample grid on
    disk at the end of the run is the Generator's output on that one noise,
    so the grids of different epochs are comparable. *)
Theorem X7_grids_use_startup_noise ag bsz epochs env s w :
  startup bsz epochs env (boot env) = (inr s, w) → 0 < bsz →
  let out := run ag bsz epochs env in
  (∀ n, viz_noise (train ag bsz n s) = viz_noise s) ∧
  (∀ e, e < epochs →
     ∃ p, fs (final out) !! joinpath OUT_PATH [fake_samples_png e] =
          Some (FImage (netG_forward p (viz_noise s)))).
Proof.
  intros Es Hb. simpl. split.
  { intros n. by destruct (train_frame ag bsz n s) as [_ ->]. }
  intros e He. rewrite (run_success _ _ _ _ _ _ Es). simpl.
  pose proof (startup_stdout _ _ _ _ _ Es) as Hout.
  destruct (startup_result _ _ _ _ _ Es) as (_ & Hne & _).
  rewrite (train_keeps ag bsz (S e) epochs s); [|done| |lia|].
  - rewrite train_S.
    destruct (train_frame ag bsz e s) as [Hd Hv]. rewrite <- Hv.
    apply train_epoch_grid; [done|]. by rewrite Hd.
  - intros Hp%out_file_inj.
    by destruct (names_apart e e) as (_&_&_&_&_&_&_&Hn&_).
  - intros e' He' ->%epoch_paths_fake. lia.
Qed.

(** ** The schedule of reports *)

Lemma is_sample_names e :
  is_sample_write (EvWrite (joinpath OUT_PATH [real_samples_png])) = true ∧
  is_sample_write (EvWrite (joinpath OUT_PATH [fake_samples_png e])) = true ∧
  is_sample_write (EvWrite (joinpath OUT_PATH [netG_pth e])) = false ∧
  is_sample_write (EvWrite (joinpath OUT_PATH [netD_pth e])) = false.
Proof.
  unfold is_sample_write, joinpath. rewrite !last_snoc. peel_names. done.
Qed.

Lemma report_sample_writes epoch i line :
  List.filter is_sample_write (report_events epoch i line) = sample_writes epoch i.
Proof.
  unfold report_events, sample_writes.
  destruct (is_sample_names epoch) as (Hr & Hf & _).
  case_bool_decide; [|done]. cbn [List.filter].
  change (is_sample_write (EvPrint line)) with false. cbv iota.
  by rewrite Hr, Hf.
Qed.

Lemma train_batch_samples ag epoch i total data s :
  List.filter is_sample_write (trace (world (train_batch ag epoch i total data s))) =
  List.filter is_sample_write (trace (world s)) ++ sample_writes epoch i.
Proof.
  rewrite train_batch_trace, List.filter_app. f_equal.
  change (?e :: batch_pattern ++ ?r) with ((e :: batch_pattern) ++ r).
  by rewrite List.filter_app, report_sample_writes.
Qed.

Lemma for_batches_samples ag epoch i total bs s :
  List.filter is_sample_write (trace (world (for_batches ag epoch i total bs s))) =
  List.filter is_sample_write (trace (world s)) ++
  concat (sample_writes epoch <$> seq i (length bs)).
Proof.
  revert i s. induction bs as [|x bs IH]; intros i s.
  - simpl. by rewrite app_nil_r.
  - cbn [for_batches length seq fmap list_fmap concat].
    by rewrite IH, train_batch_samples, <- app_assoc.
Qed.

Lemma quiet_batches epoch i n :
  0 < i → i + n ≤ 100 → concat (sample_writes epoch <$> seq i n) = [].
Proof.
  revert i. induction n as [|n IH]; intros i Hi Hn; [done|].
  cbn [seq fmap list_fmap concat]. rewrite IH by lia.
  unfold sample_writes. rewrite bool_decide_eq_false_2; [done|].
  rewrite Nat.mod_small by lia. lia.
Qed.

(** X8. Sample images are written exactly at the batches whose index is a
    multiple of 100, real batch first and fake grid second, and at no other
    point of an epoch; so an epoch of at most 100 batches over a non-empty
    dataset writes one pair, at its first batch. *)
Theorem X8_sample_images_every_hundredth_batch ag bsz epoch s :
  let nb := num_batches bsz (length (dataset s)) in
  List.filter is_sample_write (trace (world (train_epoch ag bsz epoch s))) =
  List.filter is_sample_write (trace (world s)) ++
  concat (sample_writes epoch <$> seq 0 nb) ∧
  (0 < nb ≤ 100 →
   concat (sample_writes epoch <$> seq 0 nb) =
   [EvWrite (joinpath OUT_PATH [real_samples_png]);
    EvWrite (joinpath OUT_PATH [fake_samples_png epoch])]).
Proof.
  simpl. split.
  - rewrite train_epoch_unfold. unfold torch_save. simpl. world_simpl.
    rewrite !List.filter_app.
    destruct (is_sample_names epoch) as (_ & _ & HG & HD).
    cbn [List.filter]. rewrite HG, HD, !app_nil_r.
    rewrite (for_batches_samples ag epoch 0 _ _
               (on_world (set_rng (shuffle (rng (world s)) (dataset s)).2) s)).
    simpl. world_simpl.
    by rewrite length_batches, (Permutation_length (shuffle_perm _ _)).
  - intros [Hpos Hle].
    destruct (num_batches bsz (length (dataset s))) as [|n]; [lia|].
    cbn [seq fmap list_fmap concat]. rewrite quiet_batches by lia.
    by rewrite app_nil_r.
Qed.

(** ** The log *)

Lemma printed_app tr1 tr2 : printed (tr1 ++ tr2) = printed tr1 ++ printed tr2.
Proof. apply omap_app. Qed.



(** X10. A batch prints at most one line, the report, and only when its
    index is a multiple of 100.  The three losses in it are those of this
    batch: the real and the fake Discriminator loss are taken with the
    Discriminator as it was before its update, and the Generator loss on the
    same fake images (made by the Generator before its own update) with the
    Discriminator as it is after its update. *)
Theorem X10_report_line_losses ag epoch i total data s :
  let s' := train_batch ag epoch i total data s in
  let z_noise := (randn (rng (world s)) (length data) Z_DIM).1 in
  let x_fake := netG_forward (paramsG s) z_noise in
  let l_real := BCELoss (netD_forward (paramsD s) data)
                        (replicate (length data) REAL_LABEL) in
  let l_fake := BCELoss (netD_forward (paramsD s) x_fake)
                        (replicate (length data) FAKE_LABEL) in
  let l_gen := BCELoss (netD_forward (paramsD s') x_fake)
                       (replicate (length data) REAL_LABEL) in
  printed (trace (world s')) =
  printed (trace (world s)) ++
  (if bool_decide (i `mod` 100 = 0)
   then [report_line epoch i total l_real l_fake l_gen] else []).
Proof.
  cbv zeta.
  pose proof (train_batch_D ag epoch i total data s) as HD. cbv zeta in HD.
  apply (f_equal snd) in HD. cbn [snd] in HD. rewrite HD.
  rewrite train_batch_trace, printed_app. f_equal.
  change (?e :: batch_pattern ++ ?r) with ((e :: batch_pattern) ++ r).
  rewrite printed_app. unfold report_events. case_bool_decide; reflexivity.
Qed.

End Further.

(** * The further properties on concrete runs *)

(** X1 on three samples in batches of two. *)
Lemma X1_witness :
  concat (batches 2 (shuffle (rng (world toy_state)) (dataset toy_state)).1) ≡ₚ
    dataset toy_state ∧
  length (batches 2 (shuffle (rng (world toy_state)) (dataset toy_state)).1) =
    num_batches 2 (length (dataset toy_state)).
Proof.
  destruct (X1_epoch_batches_partition_dataset (T := toy) 2 toy_state)
    as (Hperm & Hlen & _); [lia|].
  split; [exact Hperm | exact Hlen].
Defined.

(** X3 on the environment without the primary folder: one channel. *)
Lemma X3_witness :
  ∃ s w, startup 2 2 (toy_env 5) (boot (toy_env 5)) = (inr s, w) ∧
         paramsG s = 1%Z ∧ paramsD s = 10%Z.
Proof.
  eexists _, _. split; [reflexivity|].
  edestruct (X3_initial_state_from_seed (T := toy) 2 2 (toy_env 5))
    as (HG & HD & _); [reflexivity|].
  split; [exact HG | exact HD].
Defined.


(** X5 on an environment whose primary folder exists and is empty, while
    the digit loader would return samples. *)
Lemma X5_witness :
  startup 2 2 (with_MNIST other_digits (toy_env_primary (inr [])))
    (boot (with_MNIST other_digits (toy_env_primary (inr [])))) =
  startup 2 2 (toy_env_primary (inr [])) (boot (toy_env_primary (inr []))) ∧
  ∃ w, startup 2 2 (toy_env_primary (inr [])) (boot (toy_env_primary (inr []))) =
       (inl AssertionError, w).
Proof.
  destruct (X5_existing_primary_never_falls_back (T := toy) 2 2
              (toy_env_primary (inr [])) other_digits eq_refl)
    as (Hsame & _ & Hempty).
  split; [exact Hsame | apply Hempty; reflexivity].
Defined.

(** X6 on an environment whose primary folder fails to load. *)
Lemma X6_witness :
  exit_code (run (toy_ag 0 0) 2 2 (toy_env_primary (inl (Raised "bad image")))) = 1%Z ∧
  console_err (final (run (toy_ag 0 0) 2 2 (toy_env_primary (inl (Raised "bad image")))))
    = [Traceback (Raised "bad image")].
Proof.
  destruct (X6_loader_exception_propagates (T := toy) (toy_ag 0 0) 2 2
              (toy_env_primary (inl (Raised "bad image"))) (Raised "bad image") eq_refl)
    as (_ & Hexit & Herr & _).
  split; [exact Hexit | exact Herr].
Defined.

(** X7 on a run of two epochs over five samples. *)
Lemma X7_witness :
  ∃ s w, startup 2 2 (toy_env 5) (boot (toy_env 5)) = (inr s, w) ∧
    ∃ p, fs (final (run (toy_ag 0 0) 2 2 (toy_env 5))) !!
           joinpath OUT_PATH [fake_samples_png 1] =
         Some (FImage (netG_forward p (viz_noise s))).
Proof.
  eexists _, _. split; [reflexivity|].
  edestruct (X7_grids_use_startup_noise (T := toy) (toy_ag 0 0) 2 2 (toy_env 5))
    as (_ & Hgrid); [reflexivity | lia |].
  apply Hgrid. lia.
Defined.
